(** * ae-notifier: the scheduling and reconciliation core of [bot.py]

    A shallow embedding of [src/bot.py] and the properties of its
    recurrence clock, event classifier, display renderer, display
    reconciler, notification sender and start-up check.

    Conventions of the embedding.
    - A [datetime] is an aware UTC instant with Python's microsecond
      resolution, written as the number of microseconds since
      1970-01-01T00:00:00Z; a [timedelta] is a number of microseconds.
      [timedelta.total_seconds()] is the division of that number by 10^6;
      every comparison the program makes on it is against a whole number of
      seconds, so it is written on the microsecond count.
    - A call of [datetime.now(timezone.utc)] is an argument of the function
      that makes it: [now] is the value the call returned.
    - An exception is a value of [exn]; a function that can raise returns a
      [result].
    - What the program prints, and every call it makes on the chat platform,
      the task loop and the client, is appended to a trace of [effect]s. *)

From Stdlib Require Import ZArith QArith Qround Lia Ascii String Sorted Permutation.
From stdpp Require Import base gmap strings list pretty.

Open Scope Z_scope.

(** ** Exceptions and results *)

Inductive exn :=
| TypeError
| ValueError
| NotFound
| Forbidden
| LoginFailure
| RuntimeError
| AttributeError
| OtherException (msg : string).

Inductive result (A : Type) :=
| Ok (a : A)
| Raise (e : exn).

Arguments Ok {A} a.
Arguments Raise {A} e.

Definition bind_result {A B} (r : result A) (k : A -> result B) : result B :=
  match r with
  | Ok a => k a
  | Raise e => Raise e
  end.

Notation "'let*' x ':=' r 'in' k" := (bind_result r (fun x => k))
  (at level 10, x name, r at level 100, k at level 200).

(** ** Instants and durations *)

Definition datetime := Z.
Definition timedelta := Z.

Definition SECOND : timedelta := 1000000.
Definition MINUTE : timedelta := 60 * SECOND.

(** [timedelta(minutes=k)]. *)
Definition timedelta_minutes (k : Z) : timedelta := k * MINUTE.

(** [range(a, b)] of Python, as the list it iterates over. *)
Definition range (a b : Z) : list Z :=
  map (fun i => a + Z.of_nat i) (seq 0 (Z.to_nat (b - a))).

(** ** The cron trigger of the scheduling library

    [CronTrigger] is APScheduler's; the program uses two of its operations,
    [CronTrigger.from_crontab(expr, timezone=utc)] and
    [trigger.get_next_fire_time(None, start)].  They are modelled here
    from the library's documented behaviour, for numeric field expressions:
    [*], [*/n], [a], [a-b], [a-b/n], [a/n] and comma-separated lists of
    them.  (Month and weekday names abbreviate numbers; the day forms
    [last] and [nth weekday] are not modelled: [from_crontab] rejects
    them here.  Every theorem below that speaks of a trigger holds for an
    arbitrary value of [CronTrigger.t], parsed from a string or not.) *)

Module CronTrigger.

Inductive expression :=
| AllExpression (step : option Z)
| RangeExpression (first : Z) (last : option Z) (step : option Z).

(** The five fields of a crontab line.  The library's other fields take
    their defaults: year [*] (1970 to 9999), week [*], second [0]. *)
Record t := {
  minute : list expression;
  hour : list expression;
  day : list expression;
  month : list expression;
  day_of_week : list expression
}.

(** *** Calendar: the fields of an instant in UTC *)

(** (year, month, day) of the day [z] days after 1970-01-01, in the
    proleptic Gregorian calendar. *)
Definition civil_from_days (z : Z) : Z * Z * Z :=
  let z := z + 719468 in
  let era := z / 146097 in
  let doe := z - era * 146097 in
  let yoe := (doe - doe / 1460 + doe / 36524 - doe / 146096) / 365 in
  let doy := doe - (365 * yoe + yoe / 4 - yoe / 100) in
  let mp := (5 * doy + 2) / 153 in
  let d := doy - (153 * mp + 2) / 5 + 1 in
  let m := if mp <? 10 then mp + 3 else mp - 9 in
  let y := yoe + era * 400 + (if m <=? 2 then 1 else 0) in
  (y, m, d).

(** Monday is 0, as [date.weekday()] has it; 1970-01-01 was a Thursday. *)
Definition weekday_from_days (z : Z) : Z := (z + 3) mod 7.

Definition is_leap (y : Z) : bool :=
  ((y mod 4 =? 0) && negb (y mod 100 =? 0)) || (y mod 400 =? 0).

(** [calendar.monthrange(y, m)[1]]. *)
Definition days_in_month (y m : Z) : Z :=
  if m =? 2 then (if is_leap y then 29 else 28)
  else if (m =? 4) || (m =? 6) || (m =? 9) || (m =? 11) then 30
  else 31.

(** *** Field expressions *)

Definition step_ok (step : option Z) (offset : Z) : bool :=
  match step with
  | None => true
  | Some s => offset mod s =? 0
  end.

(** Whether the field value [v] satisfies the expression, in a field whose
    values range over [minval .. maxval] at that date. *)
Definition expression_matches (minval maxval : Z) (e : expression) (v : Z) : bool :=
  match e with
  | AllExpression step =>
      (minval <=? v) && (v <=? maxval) && step_ok step (v - minval)
  | RangeExpression first last step =>
      let lo := Z.max minval first in
      let hi := match last with Some l => Z.min maxval l | None => maxval end in
      (lo <=? v) && (v <=? hi) && step_ok step (v - lo)
  end.

(** A field holds a list of expressions and is satisfied by any of them. *)
Definition field_matches (minval maxval : Z) (es : list expression) (v : Z) : bool :=
  existsb (fun e => expression_matches minval maxval e v) es.

(** The first minute after the last one of year 9999, in minutes since the
    epoch: the year field ranges over 1970 .. 9999. *)
Definition MAX_MINUTE : Z := 2932897 * 1440.

(** Whether the trigger fires at the minute [m] (minutes since the epoch):
    every field of that instant satisfies its expressions.  The day of the
    month and the day of the week must both match. *)
Definition fires_at (tr : t) (m : Z) : bool :=
  let days := m / 1440 in
  let '(y, mo, d) := civil_from_days days in
  (0 <=? m) && (m <? MAX_MINUTE)
  && field_matches 1 12 (month tr) mo
  && field_matches 1 (days_in_month y mo) (day tr) d
  && field_matches 0 6 (day_of_week tr) (weekday_from_days days)
  && field_matches 0 23 (hour tr) ((m / 60) mod 24)
  && field_matches 0 59 (minute tr) (m mod 60).

(** *** Bounded minimisation

    [first_in f w lo] is the least [x] with [lo <= x < lo + w] and
    [f x = true].  It splits the interval along the binary digits of its
    width, left half first, so that it evaluates in time proportional to
    the distance of the answer, whatever the width. *)
Fixpoint first_in (f : Z -> bool) (w : positive) (lo : Z) : option Z :=
  match w with
  | xH => if f lo then Some lo else None
  | xO w' =>
      match first_in f w' lo with
      | Some x => Some x
      | None => first_in f w' (lo + Z.pos w')
      end
  | xI w' =>
      if f lo then Some lo
      else match first_in f w' (lo + 1) with
           | Some x => Some x
           | None => first_in f w' (lo + 1 + Z.pos w')
           end
  end.

(** The least [x] with [lo <= x < hi] and [f x = true]. *)
Definition first_between (f : Z -> bool) (lo hi : Z) : option Z :=
  match hi - lo with
  | Z.pos w => first_in f w lo
  | _ => None
  end.

(** *** [get_next_fire_time(None, start)]

    With no previous fire time the library rounds [start] up to a whole
    second ([datetime_ceil]) and returns the earliest instant from there on
    at which every field matches, [None] once the year field is exhausted.
    The instant [start] itself is returned when it matches.  Fire times
    have second 0, so the search runs over whole minutes. *)
Definition datetime_ceil (d : datetime) : datetime :=
  - ((- d) / SECOND) * SECOND.

Definition get_next_fire_time (tr : t) (start : datetime) : option datetime :=
  let next_date := datetime_ceil start in
  let m0 := - ((- next_date) / MINUTE) in
  match first_between (fires_at tr) (Z.max 0 m0) MAX_MINUTE with
  | Some m => Some (m * MINUTE)
  | None => None
  end.

(** *** [from_crontab] *)

Definition is_digit (c : ascii) : bool :=
  let n := Z.of_nat (nat_of_ascii c) in (48 <=? n) && (n <=? 57).

(** White space as [str.split()] sees it in ASCII. *)
Definition is_space (c : ascii) : bool :=
  let n := Z.of_nat (nat_of_ascii c) in
  (n =? 32) || ((9 <=? n) && (n <=? 13)) || ((28 <=? n) && (n <=? 31)).

(** [s.split(sep)] for a one-character separator. *)
Fixpoint split_on (sep : ascii) (s : list ascii) : list (list ascii) :=
  match s with
  | [] => [[]]
  | c :: s' =>
      match split_on sep s' with
      | w :: ws => if Ascii.eqb c sep then [] :: w :: ws else (c :: w) :: ws
      | [] => [[c]]
      end
  end.

(** [s.split()]: the maximal runs of characters that are not white space. *)
Fixpoint split_ws (s : list ascii) (cur : list ascii) : list (list ascii) :=
  match s with
  | [] => match cur with [] => [] | _ => [rev cur] end
  | c :: s' =>
      if is_space c
      then match cur with [] => split_ws s' [] | _ => rev cur :: split_ws s' [] end
      else split_ws s' (c :: cur)
  end.

(** A non-empty run of decimal digits as a number. *)
Definition parse_digits (s : list ascii) : option Z :=
  match s with
  | [] => None
  | _ =>
      if forallb is_digit s
      then Some (fold_left (fun acc c => 10 * acc + (Z.of_nat (nat_of_ascii c) - 48)) s 0)
      else None
  end.

(** An optional [/step] suffix: [None] when it is malformed or the step is 0. *)
Definition parse_step (parts : list (list ascii)) : option (list ascii * option Z) :=
  match parts with
  | [body] => Some (body, None)
  | [body; st] =>
      match parse_digits st with
      | Some n => if n =? 0 then None else Some (body, Some n)
      | None => None
      end
  | _ => None
  end.

Definition parse_expression (s : list ascii) : option expression :=
  match parse_step (split_on "/"%char s) with
  | None => None
  | Some (body, step) =>
      match body with
      | ["*"%char] => Some (AllExpression step)
      | _ =>
          match split_on "-"%char body with
          | [a] =>
              match parse_digits a with
              | Some first =>
                  Some (RangeExpression first
                          (match step with None => Some first | Some _ => None end) step)
              | None => None
              end
          | [a; b] =>
              match parse_digits a, parse_digits b with
              | Some first, Some last =>
                  if first <=? last then Some (RangeExpression first (Some last) step)
                  else None
              | _, _ => None
              end
          | _ => None
          end
      end
  end.

(** The range checks of the library's field compilers. *)
Definition validate_range (minval maxval : Z) (e : expression) : bool :=
  match e with
  | AllExpression step =>
      match step with Some s => s <=? maxval - minval | None => true end
  | RangeExpression first last step =>
      (minval <=? first)
      && match last with Some l => l <=? maxval | None => true end
      && match step with
         | Some s => s <=? (match last with Some l => l | None => maxval end) - first
         | None => true
         end
  end.

Fixpoint compile_expressions (minval maxval : Z) (parts : list (list ascii))
  : option (list expression) :=
  match parts with
  | [] => Some []
  | p :: ps =>
      match parse_expression p, compile_expressions minval maxval ps with
      | Some e, Some es => if validate_range minval maxval e then Some (e :: es) else None
      | _, _ => None
      end
  end.

Definition compile_field (minval maxval : Z) (s : list ascii) : option (list expression) :=
  compile_expressions minval maxval (split_on ","%char s).

(** [CronTrigger.from_crontab(expr, timezone=timezone.utc)]: five
    white-space separated fields, minute hour day month day_of_week;
    [ValueError] otherwise. *)
Definition from_crontab (expr : string) : result t :=
  match split_ws (list_ascii_of_string expr) [] with
  | [mi; ho; da; mo; dw] =>
      match compile_field 0 59 mi, compile_field 0 23 ho, compile_field 1 31 da,
            compile_field 1 12 mo, compile_field 0 6 dw with
      | Some mi, Some ho, Some da, Some mo, Some dw =>
          Ok {| minute := mi; hour := ho; day := da; month := mo; day_of_week := dw |}
      | _, _, _, _, _ => Raise ValueError
      end
  | _ => Raise ValueError
  end.

(** An instant is a fire time of the trigger when it is a whole minute at
    which the trigger fires. *)
Definition is_fire_time (tr : t) (d : datetime) : Prop :=
  d mod MINUTE = 0 /\ fires_at tr (d / MINUTE) = true.

End CronTrigger.

(** ** The schedule table and the recurrence clock ([bot.py], lines 17-56) *)

Definition EVENT_SCHEDULE : list (string * string) :=
  [ ("Easy Dungeon",      "0 * * * *");
    ("Medium Dungeon",    "10 * * * *");
    ("Leaf Raid",         "15 * * * *");
    ("Hard Dungeon",      "20 * * * *");
    ("Insane Dungeon",    "30 * * * *");
    ("Crazy Dungeon",     "40 * * * *");
    ("Nightmare Dungeon", "50 * * * *") ].

(** [get_next_run_time(cron_str)], [now] being the clock's reading inside. *)
Definition get_next_run_time (cron_str : string) (now : datetime)
  : result (option datetime) :=
  let* trigger := CronTrigger.from_crontab cron_str in
  Ok (CronTrigger.get_next_fire_time trigger now).

(** The loop of [get_previous_run_time] over [range(1, 121)]: the first
    probe whose next fire time is not after [now] and at most 7200
    seconds before it. *)
Fixpoint scan_back (trigger : CronTrigger.t) (now : datetime) (probes : list Z)
  : option datetime :=
  match probes with
  | [] => None
  | minutes_back :: rest =>
      let check_time := now - timedelta_minutes minutes_back in
      match CronTrigger.get_next_fire_time trigger check_time with
      | Some next_fire =>
          if (next_fire <=? now) && (now - next_fire <=? 7200 * SECOND)
          then Some next_fire
          else scan_back trigger now rest
      | None => scan_back trigger now rest
      end
  end.

(** [get_previous_run_time(cron_str)], [now] being the clock's reading inside. *)
Definition get_previous_run_time (cron_str : string) (now : datetime)
  : result (option datetime) :=
  let* trigger := CronTrigger.from_crontab cron_str in
  Ok (scan_back trigger now (range 1 121)).

(** ** Countdown formatting ([bot.py], lines 97-112)

    [seconds] is a Python number; it is a rational here, and [//], [%] and
    [int] are the exact operations that Python's floats compute on the
    values the program passes (microsecond multiples below 2^53). *)

(** [a // b] for a positive [b]: the floor of the quotient, as a number. *)
Definition floordiv (a b : Q) : Q := inject_Z (Qfloor (a / b)).

(** [a % b] for a positive [b]. *)
Definition modulo (a b : Q) : Q := a - b * floordiv a b.

(** [int(x)]: truncation towards zero. *)
Definition int (x : Q) : Z :=
  if Qle_bool 0 x then Qfloor x else Qceiling x.

Definition format_countdown (seconds : Q) : string :=
  if Qle_bool seconds 0 then "0s"
  else if Qle_bool 3600 seconds then
    let hours := int (floordiv seconds 3600) in
    let minutes := int (floordiv (modulo seconds 3600) 60) in
    let secs := int (modulo seconds 60) in
    pretty hours +:+ "h " +:+ pretty minutes +:+ "m " +:+ pretty secs +:+ "s"
  else if Qle_bool 60 seconds then
    let minutes := int (floordiv seconds 60) in
    let secs := int (modulo seconds 60) in
    pretty minutes +:+ "m " +:+ pretty secs +:+ "s"
  else
    pretty (int seconds) +:+ "s".

(** [d.total_seconds()] as an exact number. *)
Definition total_seconds (d : timedelta) : Q := (d # 1000000)%Q.

(** ** Events of a tick ([bot.py], lines 124-159) *)

(** An entry of [events_info].  An event whose next run is [None] gets no
    entry, so [next_time] is an instant. *)
Record event := {
  name : string;
  next_time : datetime;
  prev_time : option datetime
}.

(** An entry of [active_events]: the event with its ["time_remaining"],
    which is [120 - time_since_start] seconds. *)
Record active_event := {
  active_of : event;
  time_remaining : timedelta
}.

(** The loop over [EVENT_SCHEDULE.items()].  [clock k] holds the two
    readings of the clock made for the [k]-th entry: the one inside
    [get_next_run_time] and the one inside [get_previous_run_time]. *)
Fixpoint events_loop (schedule : list (string * string))
  (clock : nat -> datetime * datetime) (k : nat) : result (list event) :=
  match schedule with
  | [] => Ok []
  | (nm, sched) :: rest =>
      let* next_run := get_next_run_time sched (fst (clock k)) in
      let* prev_run := get_previous_run_time sched (snd (clock k)) in
      let* tail := events_loop rest clock (S k) in
      Ok (match next_run with
          | Some n => {| name := nm; next_time := n; prev_time := prev_run |} :: tail
          | None => tail
          end)
  end.

(** The test of lines 146-148: [Some time_remaining] when the event has a
    previous run and [0 <= time_since_start <= 120]. *)
Definition active_window (now : datetime) (ev : event) : option timedelta :=
  match prev_time ev with
  | Some prev =>
      let time_since_start := now - prev in
      if (0 <=? time_since_start) && (time_since_start <=? 120 * SECOND)
      then Some (120 * SECOND - time_since_start)
      else None
  | None => None
  end.

(** The loop of lines 145-155: ([active_events], [upcoming_events]). *)
Fixpoint classify (now : datetime) (events_info : list event)
  : list active_event * list event :=
  match events_info with
  | [] => ([], [])
  | ev :: rest =>
      let '(active, upcoming) := classify now rest in
      match active_window now ev with
      | Some remaining =>
          ({| active_of := ev; time_remaining := remaining |} :: active, upcoming)
      | None => (active, ev :: upcoming)
      end
  end.

(** [l.sort(key=...)]: ascending and stable.  An element goes in front of
    the first one whose key is not smaller, elements taken from the right. *)
Fixpoint insert_by {A} (key : A -> Z) (x : A) (l : list A) : list A :=
  match l with
  | [] => [x]
  | y :: l' => if key x <=? key y then x :: y :: l' else y :: insert_by key x l'
  end.

Fixpoint sort_by {A} (key : A -> Z) (l : list A) : list A :=
  match l with
  | [] => []
  | x :: l' => insert_by key x (sort_by key l')
  end.

(** ** The display payload ([bot.py], lines 136-190) *)

Inductive Color := dark_purple.

Record EmbedField := {
  field_name : string;
  field_value : string;
  inline : bool
}.

Record Embed := {
  title : option string;
  description : option string;
  color : option Color;
  fields : list EmbedField;
  footer : option string;
  timestamp : option datetime
}.

Definition newline : string := String (ascii_of_nat 10) "".

(** [max(0, event["time_remaining"])] (line 162). *)
Definition clamped_remaining (ev : active_event) : timedelta :=
  Z.max 0 (time_remaining ev).

(** The field added for an active event (lines 161-169). *)
Definition active_field (ev : active_event) : EmbedField :=
  let countdown := format_countdown (total_seconds (clamped_remaining ev)) in
  {| field_name := "🟢 **ACTIVE** - " +:+ name (active_of ev);
     field_value := "⏱️ Join window closes in: **" +:+ countdown +:+ "**"
                    +:+ newline +:+ "🚪 **JOIN NOW!**";
     inline := false |}.

(** [int(d.timestamp())]: whole seconds, truncated towards zero. *)
Definition int_timestamp (d : datetime) : Z := Z.quot d SECOND.

(** [event["next_time"] - now] (line 172). *)
Definition time_until (now : datetime) (ev : event) : timedelta :=
  next_time ev - now.

(** The field of lines 175-177: the label of the next event, with a
    countdown. *)
Definition next_up_field (now : datetime) (ev : event) : EmbedField :=
  let countdown := format_countdown (total_seconds (time_until now ev)) in
  {| field_name := "🟡 **NEXT UP**" +:+ " - " +:+ name ev;
     field_value := "⏰ Starts in: **" +:+ countdown +:+ "**";
     inline := false |}.

(** The field of lines 179-181: the label of a scheduled event, with a
    relative timestamp for the platform to render. *)
Definition scheduled_field (ev : event) : EmbedField :=
  let timestamp := "<t:" +:+ pretty (int_timestamp (next_time ev)) +:+ ":R>" in
  {| field_name := "🔴 **SCHEDULED**" +:+ " - " +:+ name ev;
     field_value := "📅 Starts " +:+ timestamp;
     inline := false |}.

(** The field added for the [i]-th upcoming event (lines 171-187). *)
Definition upcoming_field (now : datetime) (no_active : bool) (i : nat) (ev : event)
  : EmbedField :=
  if (Nat.eqb i 0) && no_active then next_up_field now ev else scheduled_field ev.

(** [enumerate]: the fields of the upcoming events, counted from [i]. *)
Fixpoint upcoming_fields (now : datetime) (no_active : bool) (i : nat) (l : list event)
  : list EmbedField :=
  match l with
  | [] => []
  | ev :: rest => upcoming_field now no_active i ev :: upcoming_fields now no_active (S i) rest
  end.

Definition is_empty {A} (l : list A) : bool :=
  match l with [] => true | _ => false end.

(** Lines 136-190: the embed built from [events_info] at the instant [now]. *)
Definition build_embed (now : datetime) (events_info : list event) : Embed :=
  let '(active_events, upcoming_events) := classify now events_info in
  let active_events := sort_by time_remaining active_events in
  let upcoming_events := sort_by next_time upcoming_events in
  {| title := Some "🏰 Dungeon & Raid Schedule";
     description := Some "Live countdowns for hourly dungeons and raids";
     color := Some dark_purple;
     fields := map active_field active_events
               ++ upcoming_fields now (is_empty active_events) 0 upcoming_events;
     footer := Some "🤖 Auto-updating every 10 seconds • Join during the green active window!";
     timestamp := Some now |}.

(** ** The chat platform, the task loop and the program's state *)

Record Message := {
  message_id : Z;
  author_id : Z;
  content : string;
  embeds : list Embed
}.

Record Channel := { channel_id : Z }.

(** The loop object that [@tasks.loop(seconds=10)] makes of [update_embed]
    (discord.py): [stop()] lets the running iteration finish and ends the
    task after it, [start()] refuses a task that has not ended, and
    [is_running()] holds until the task has ended. *)
Module Loop.

Record t := {
  task_running : bool;
  stop_next_iteration : bool
}.

Definition idle : t := {| task_running := false; stop_next_iteration := false |}.

Definition is_running (l : t) : bool := task_running l.

Definition start (l : t) : result t :=
  if task_running l then Raise RuntimeError
  else Ok {| task_running := true; stop_next_iteration := false |}.

Definition stop (l : t) : t :=
  if task_running l then {| task_running := true; stop_next_iteration := true |} else l.

(** What the task does when the body of an iteration has returned. *)
Definition after_iteration (l : t) : t :=
  if stop_next_iteration l then idle else l.

End Loop.

(** An entry of [active_ping_messages]. *)
Record ping_entry := {
  message : Message;
  delete_time : datetime
}.

(** A job of the scheduler: [send_ping] with its trigger and arguments. *)
Record job := {
  job_trigger : CronTrigger.t;
  job_channel : option Channel;
  job_role_id : Z;
  job_event_name : string
}.

(** What the program prints and the calls it makes on its collaborators,
    in order, each call with the way it ended.  [print_exn prefix e] is
    [print(f"{prefix}{e}")]. *)
Inductive effect :=
| print (text : string)
| print_exn (prefix : string) (e : exn)
| channel_send (text : string) (outcome : result Message)
| channel_send_embed (e : Embed) (outcome : result Message)
| channel_history (limit : Z) (outcome : result (list Message))
| message_edit (m : Message) (e : Embed) (outcome : result unit)
| message_delete (m : Message) (outcome : result unit)
| client_run (token : string) (outcome : result unit)
| client_close
| scheduler_start.

(** The module's globals that change, and the trace.  The dict
    [active_ping_messages] is a finite map; the order in which Python
    iterates over it is not kept. *)
Record state := {
  persistent_message : option Message;
  active_ping_messages : gmap string ping_entry;
  update_embed_loop : Loop.t;
  scheduler_running : bool;
  scheduler_jobs : gmap string job;
  trace : list effect
}.

Definition initial_state : state :=
  {| persistent_message := None;
     active_ping_messages := ∅;
     update_embed_loop := Loop.idle;
     scheduler_running := false;
     scheduler_jobs := ∅;
     trace := [] |}.

Definition log (e : effect) (st : state) : state :=
  {| persistent_message := persistent_message st;
     active_ping_messages := active_ping_messages st;
     update_embed_loop := update_embed_loop st;
     scheduler_running := scheduler_running st;
     scheduler_jobs := scheduler_jobs st;
     trace := trace st ++ [e] |}.

Definition set_persistent_message (m : option Message) (st : state) : state :=
  {| persistent_message := m;
     active_ping_messages := active_ping_messages st;
     update_embed_loop := update_embed_loop st;
     scheduler_running := scheduler_running st;
     scheduler_jobs := scheduler_jobs st;
     trace := trace st |}.

Definition set_active_ping_messages (t : gmap string ping_entry) (st : state) : state :=
  {| persistent_message := persistent_message st;
     active_ping_messages := t;
     update_embed_loop := update_embed_loop st;
     scheduler_running := scheduler_running st;
     scheduler_jobs := scheduler_jobs st;
     trace := trace st |}.

Definition set_update_embed_loop (l : Loop.t) (st : state) : state :=
  {| persistent_message := persistent_message st;
     active_ping_messages := active_ping_messages st;
     update_embed_loop := l;
     scheduler_running := scheduler_running st;
     scheduler_jobs := scheduler_jobs st;
     trace := trace st |}.

Definition set_scheduler (running : bool) (jobs : gmap string job) (st : state) : state :=
  {| persistent_message := persistent_message st;
     active_ping_messages := active_ping_messages st;
     update_embed_loop := update_embed_loop st;
     scheduler_running := running;
     scheduler_jobs := jobs;
     trace := trace st |}.

(** ** Configuration ([bot.py], lines 12-15) *)

Fixpoint drop_spaces (s : list ascii) : list ascii :=
  match s with
  | c :: s' => if CronTrigger.is_space c then drop_spaces s' else s
  | [] => []
  end.

(** [s.strip()]. *)
Definition strip (s : list ascii) : list ascii :=
  rev (drop_spaces (rev (drop_spaces s))).

(** [int(s)] on a string: optional white space around an optional sign and
    decimal digits, single underscores allowed between digits;
    [ValueError] otherwise. *)
Definition int_of_str (s : string) : result Z :=
  let cs := strip (list_ascii_of_string s) in
  let '(negative, ds) :=
    match cs with
    | c :: r => if Ascii.eqb c "-" then (true, r)
                else if Ascii.eqb c "+" then (false, r) else (false, cs)
    | [] => (false, cs)
    end in
  let groups := CronTrigger.split_on "_" ds in
  if forallb (fun g => negb (is_empty g) && forallb CronTrigger.is_digit g) groups
  then match CronTrigger.parse_digits (concat groups) with
       | Some n => Ok (if negative then - n else n)
       | None => Raise ValueError
       end
  else Raise ValueError.

(** [int(os.getenv(key))]: [os.getenv] gives [None] for a variable that is
    not set, and [int(None)] raises [TypeError]. *)
Definition int_of_env (v : option string) : result Z :=
  match v with
  | None => Raise TypeError
  | Some s => int_of_str s
  end.

Record config := {
  BOT_TOKEN : option string;
  GUILD_ID : Z;
  CHANNEL_ID : Z;
  NOTIFIER_ROLE_ID : Z
}.

(** Lines 12-15, on the environment that [load_dotenv()] has filled. *)
Definition load_config (environ : gmap string string) : result config :=
  let token := environ !! "BOT_TOKEN" in
  let* guild := int_of_env (environ !! "GUILD_ID") in
  let* channel := int_of_env (environ !! "CHANNEL_ID") in
  let* role := int_of_env (environ !! "NOTIFIER_ROLE_ID") in
  Ok {| BOT_TOKEN := token; GUILD_ID := guild; CHANNEL_ID := channel;
        NOTIFIER_ROLE_ID := role |}.

(** The truth value of a string or [None]. *)
Definition truthy_str (v : option string) : bool :=
  match v with
  | Some s => negb (String.eqb s "")
  | None => false
  end.

(** Lines 263-271 after lines 12-15: what the process does at start-up,
    and the exception that ends it when one is not caught.  [run_outcome]
    is how [client.run] ends when it is called. *)
Definition main (environ : gmap string string) (run_outcome : result unit)
  : list effect * option exn :=
  match load_config environ with
  | Raise e => ([], Some e)
  | Ok cfg =>
      if negb (truthy_str (BOT_TOKEN cfg)) || (GUILD_ID cfg =? 0)
         || (CHANNEL_ID cfg =? 0) || (NOTIFIER_ROLE_ID cfg =? 0)
      then ([print "FATAL: Please fill in all the configuration values in the .env file."],
            None)
      else
        let token := default "" (BOT_TOKEN cfg) in
        match run_outcome with
        | Ok _ => ([client_run token run_outcome], None)
        | Raise LoginFailure =>
            ([client_run token run_outcome;
              print "FATAL: The bot token is invalid. Please check your token."], None)
        | Raise e =>
            ([client_run token run_outcome;
              print_exn "An error occurred while starting the bot: " e], None)
        end
  end.

(** ** Notification pings ([bot.py], lines 58-95) *)

(** [send_ping(channel, role_id, event_name)].  [channel] is what
    [client.get_channel] gave when the job was added, [None] included;
    [send_outcome] is how [channel.send] ends and [now] the clock's reading
    taken after it has returned a message. *)
Definition send_ping (channel : option Channel) (role_id : Z) (event_name : string)
  (send_outcome : result Message) (now : datetime) (st : state) : state :=
  let role_to_ping := "<@&" +:+ pretty role_id +:+ ">" in
  let notification_message :=
    role_to_ping +:+ " **" +:+ event_name +:+ "** has started! Join now!" in
  match channel with
  | None => log (print_exn "An error occurred during ping: " AttributeError) st
  | Some ch =>
      let st := log (channel_send notification_message send_outcome) st in
      match send_outcome with
      | Ok sent_message =>
          let st := log (print ("Sent ping for " +:+ event_name +:+ ".")) st in
          set_active_ping_messages
            (<[event_name := {| message := sent_message;
                                delete_time := now + timedelta_minutes 2 |}]>
               (active_ping_messages st)) st
      | Raise Forbidden =>
          log (print ("Error: Bot lacks permissions to send messages in channel "
                      +:+ pretty (channel_id ch) +:+ ".")) st
      | Raise e => log (print_exn "An error occurred during ping: " e) st
      end
  end.

(** One run of a notification job by the scheduler: the fire time of the
    trigger that caused it, how the send ends, and the clock's reading
    inside [send_ping].  The fire time is not an argument of [send_ping]. *)
Record job_run := {
  fire_time : datetime;
  run_send_outcome : result Message;
  run_now : datetime
}.

Definition run_job (j : job) (r : job_run) (st : state) : state :=
  send_ping (job_channel j) (job_role_id j) (job_event_name j)
    (run_send_outcome r) (run_now r) st.

(** The body of the first loop of [cleanup_ping_messages] for one item:
    the effects, and whether the name goes to [messages_to_remove]. *)
Definition cleanup_item (delete_outcome : string -> result unit) (now : datetime)
  (item : string * ping_entry) : list effect * list string :=
  let '(event_name, msg_data) := item in
  if delete_time msg_data <=? now then
    let outcome := delete_outcome event_name in
    match outcome with
    | Ok _ =>
        ([message_delete (message msg_data) outcome;
          print ("Deleted ping message for " +:+ event_name +:+ ".")], [event_name])
    | Raise NotFound => ([message_delete (message msg_data) outcome], [event_name])
    | Raise e =>
        ([message_delete (message msg_data) outcome;
          print_exn ("Error deleting ping message for " +:+ event_name +:+ ": ") e],
         [event_name])
    end
  else ([], []).

(** [cleanup_ping_messages()]: [delete_outcome name] is how the deletion
    of the message kept under [name] ends, [now] the clock's reading. *)
Definition cleanup_ping_messages (delete_outcome : string -> result unit)
  (now : datetime) (st : state) : state :=
  let items := map_to_list (active_ping_messages st) in
  let results := map (cleanup_item delete_outcome now) items in
  let messages_to_remove := concat (map snd results) in
  let st := fold_left (fun st e => log e st) (concat (map fst results)) st in
  set_active_ping_messages
    (fold_left (fun table event_name => delete event_name table) messages_to_remove
       (active_ping_messages st)) st.

(** ** The display reconciler ([bot.py], lines 114-233) *)

(** [sub in s] on strings. *)
Fixpoint contains (sub s : string) : bool :=
  String.prefix sub s
  || match s with
     | EmptyString => false
     | String _ s' => contains sub s'
     end.

(** The test of lines 211-212 on a message of the history. *)
Definition is_schedule_message (user_id : Z) (msg : Message) : bool :=
  (author_id msg =? user_id)
  && match embeds msg with
     | e :: _ =>
         truthy_str (title e)
         && match title e with
            | Some t => contains "Dungeon & Raid Schedule" t
            | None => false
            end
     | [] => false
     end.

(** What [setup_embed_message] meets outside the program: the bot's user
    id, what [client.get_channel(CHANNEL_ID)] gives, how reading the
    history ends (newest message first) and how sending the first embed
    ends. *)
Record setup_env := {
  client_user_id : Z;
  get_channel : option Channel;
  history_outcome : result (list Message);
  send_embed_outcome : result Message
}.

(** The two [except] clauses of [setup_embed_message]. *)
Definition setup_except (cfg : config) (e : exn) (st : state) : state :=
  match e with
  | Forbidden =>
      log (print ("FATAL: Bot lacks permissions to read history or send messages in channel "
                  +:+ pretty (CHANNEL_ID cfg) +:+ ".")) st
  | _ => log (print_exn "An error occurred during embed setup: " e) st
  end.

(** Lines 226-228. *)
Definition start_update_loop (cfg : config) (st : state) : state :=
  if Loop.is_running (update_embed_loop st) then st
  else match Loop.start (update_embed_loop st) with
       | Ok l => log (print "Started embed update loop.") (set_update_embed_loop l st)
       | Raise e => setup_except cfg e st
       end.

Definition initial_embed : Embed :=
  {| title := Some "🏰 Dungeon & Raid Schedule";
     description := Some "Initializing countdown system...";
     color := Some dark_purple;
     fields := [];
     footer := None;
     timestamp := None |}.

(** [setup_embed_message()]. *)
Definition setup_embed_message (cfg : config) (env : setup_env) (st : state) : state :=
  match get_channel env with
  | None =>
      log (print ("FATAL: Channel with ID " +:+ pretty (CHANNEL_ID cfg) +:+ " not found.")) st
  | Some channel =>
      let st := log (channel_history 50 (history_outcome env)) st in
      match history_outcome env with
      | Raise e => setup_except cfg e st
      | Ok history =>
          let st :=
            match List.find (is_schedule_message (client_user_id env)) (firstn 50 history) with
            | Some msg =>
                log (print ("Found existing message to edit: " +:+ pretty (message_id msg)))
                  (set_persistent_message (Some msg) st)
            | None => st
            end in
          match persistent_message st with
          | None =>
              let st := log (channel_send_embed initial_embed (send_embed_outcome env)) st in
              match send_embed_outcome env with
              | Ok m =>
                  start_update_loop cfg
                    (log (print ("Sent new persistent message: " +:+ pretty (message_id m)))
                       (set_persistent_message (Some m) st))
              | Raise e => setup_except cfg e st
              end
          | Some _ => start_update_loop cfg st
          end
      end
  end.

(** What one call of [update_embed] meets outside the program. *)
Record tick_env := {
  delete_outcome : string -> result unit;
  now_cleanup : datetime;
  now_tick : datetime;
  clock : nat -> datetime * datetime;
  edit_outcome : result unit;
  recovery : setup_env
}.

(** [update_embed()]: the state it leaves and the exception that leaves it,
    if any. *)
Definition update_embed (cfg : config) (env : tick_env) (st : state)
  : state * option exn :=
  match persistent_message st with
  | None => (st, None)
  | Some pm =>
      let st := cleanup_ping_messages (delete_outcome env) (now_cleanup env) st in
      let now := now_tick env in
      match events_loop EVENT_SCHEDULE (clock env) 0 with
      | Raise e => (st, Some e)
      | Ok events_info =>
          let embed := build_embed now events_info in
          let st := log (message_edit pm embed (edit_outcome env)) st in
          match edit_outcome env with
          | Ok _ => (st, None)
          | Raise NotFound =>
              let st := log (print "Embed message was deleted. Attempting to recreate it...") st in
              let st := set_update_embed_loop (Loop.stop (update_embed_loop st)) st in
              (setup_embed_message cfg (recovery env) st, None)
          | Raise e => (log (print_exn "Failed to edit embed: " e) st, None)
          end
      end
  end.

(** One iteration of the task loop: the body, then what the loop does once
    the body has returned or raised. *)
Definition tick (cfg : config) (env : tick_env) (st : state) : state :=
  let '(st', err) := update_embed cfg env st in
  match err with
  | None => set_update_embed_loop (Loop.after_iteration (update_embed_loop st')) st'
  | Some _ => set_update_embed_loop Loop.idle st'
  end.

(** ** [on_ready] ([bot.py], lines 235-261) *)

Record ready_env := {
  user_name : string;
  guild_found : bool;
  ready_setup : setup_env
}.

(** The loop of lines 250-257: one job per entry, under the id
    [ping_for_<name>], an entry replacing a job of the same id. *)
Fixpoint add_jobs (schedule : list (string * string)) (channel : option Channel)
  (role_id : Z) (jobs : gmap string job) : gmap string job * option exn :=
  match schedule with
  | [] => (jobs, None)
  | (nm, sched) :: rest =>
      match CronTrigger.from_crontab sched with
      | Raise e => (jobs, Some e)
      | Ok trigger =>
          add_jobs rest channel role_id
            (<["ping_for_" +:+ nm := {| job_trigger := trigger; job_channel := channel;
                                         job_role_id := role_id; job_event_name := nm |}]> jobs)
      end
  end.

Definition on_ready (cfg : config) (env : ready_env) (st : state) : state * option exn :=
  let st := log (print ("🤖 Logged in as " +:+ user_name env +:+ " (ID: "
                        +:+ pretty (client_user_id (ready_setup env)) +:+ ")")) st in
  let st := log (print "------") st in
  if negb (guild_found env) then
    let st := log (print ("FATAL: Bot is not in the server with ID "
                          +:+ pretty (GUILD_ID cfg) +:+ ". Please invite it first.")) st in
    (log client_close st, None)
  else
    let st := setup_embed_message cfg (ready_setup env) st in
    if scheduler_running st then (st, None)
    else
      let channel := get_channel (ready_setup env) in
      match add_jobs EVENT_SCHEDULE channel (NOTIFIER_ROLE_ID cfg) (scheduler_jobs st) with
      | (jobs, Some e) => (set_scheduler (scheduler_running st) jobs st, Some e)
      | (jobs, None) =>
          let st := set_scheduler true jobs st in
          let st := log scheduler_start st in
          let st := log (print "📅 APScheduler started and jobs are scheduled.") st in
          (log (print ("🔔 Monitoring " +:+ pretty (Z.of_nat (length EVENT_SCHEDULE))
                       +:+ " events for notifications.")) st, None)
      end.

(** ** The process as a sequence of handler calls

    The handlers that the event loop runs are [on_ready], an iteration of
    the [update_embed] task, and a notification job.  A call of a handler
    is one step here: what another handler does while this one waits for
    the platform is not modelled. *)
Inductive handler_call :=
| call_on_ready (env : ready_env)
| call_update_embed (env : tick_env)
| call_send_ping (job_id : string) (r : job_run).

Definition step (cfg : config) (c : handler_call) (st : state) : state :=
  match c with
  | call_on_ready env => fst (on_ready cfg env st)
  | call_update_embed env =>
      if Loop.is_running (update_embed_loop st) then tick cfg env st else st
  | call_send_ping job_id r =>
      match scheduler_jobs st !! job_id with
      | Some j => if scheduler_running st then run_job j r st else st
      | None => st
      end
  end.

Definition run (cfg : config) (calls : list handler_call) (st : state) : state :=
  fold_left (fun st c => step cfg c st) calls st.

(** The sends of a display embed in a trace, those that returned a
    message (each created a display artifact), and the sends of a
    notification. *)
Definition is_embed_send (e : effect) : bool :=
  match e with channel_send_embed _ _ => true | _ => false end.

Definition is_embed_creation (e : effect) : bool :=
  match e with channel_send_embed _ (Ok _) => true | _ => false end.

Definition is_ping_send (e : effect) : bool :=
  match e with channel_send _ _ => true | _ => false end.

Definition is_log (e : effect) : bool :=
  match e with print _ | print_exn _ _ => true | _ => false end.

Definition embeds_sent (tr : list effect) : nat :=
  length (List.filter is_embed_send tr).

Definition embeds_created (tr : list effect) : nat :=
  length (List.filter is_embed_creation tr).

Definition pings_sent (tr : list effect) : nat :=
  length (List.filter is_ping_send tr).

(** A part of a handler that sends no embed and leaves the handle alone. *)
Definition quiet (st st' : state) : Prop :=
  exists new,
    trace st' = trace st ++ new
    /\ embeds_sent new = 0%nat
    /\ persistent_message st' = persistent_message st.

(** What a handler may do to the handle and to the display artifacts. *)
Definition keeps_single_artifact (st st' : state) : Prop :=
  exists new,
    trace st' = trace st ++ new
    /\ (embeds_created new <= 1)%nat
    /\ (persistent_message st <> None ->
        embeds_sent new = 0%nat /\ persistent_message st' <> None)
    /\ (embeds_created new = 1%nat -> persistent_message st' <> None).


Definition required_keys : list string :=
  ["BOT_TOKEN"; "GUILD_ID"; "CHANNEL_ID"; "NOTIFIER_ROLE_ID"].

(** The minute of the hour at which a rule of the form [M * * * *] fires. *)
Definition rule_minute (sched : string) : option Z :=
  match CronTrigger.from_crontab sched with
  | Ok tr =>
      match CronTrigger.minute tr with
      | [CronTrigger.RangeExpression m (Some l) None] => if m =? l then Some m else None
      | _ => None
      end
  | Raise _ => None
  end.

(** Two rules fire at least five minutes apart, around the hour too. *)
Definition minutes_apart (s1 s2 : string) : bool :=
  match rule_minute s1, rule_minute s2 with
  | Some m1, Some m2 => (5 <=? (m1 - m2) mod 60) && ((m1 - m2) mod 60 <=? 55)
  | _, _ => false
  end.

(** Whether the calendar fields of the day [z] are a month of the year and
    a day of that month. *)
Definition valid_day (z : Z) : bool :=
  let '(y, m, d) := CronTrigger.civil_from_days z in
  (1 <=? m) && (m <=? 12) && (1 <=? d) && (d <=? CronTrigger.days_in_month y m).

(** The trigger of [M * * * *]. *)
Definition hourly_at (m : Z) : CronTrigger.t :=
  {| CronTrigger.minute := [CronTrigger.RangeExpression m (Some m) None];
     CronTrigger.hour := [CronTrigger.AllExpression None];
     CronTrigger.day := [CronTrigger.AllExpression None];
     CronTrigger.month := [CronTrigger.AllExpression None];
     CronTrigger.day_of_week := [CronTrigger.AllExpression None] |}.

(** 9999-12-31T23:00:00Z: an hourly rule has a fire time left from any
    instant up to this one. *)
Definition LAST_HOUR : datetime := (CronTrigger.MAX_MINUTE - 60) * MINUTE.

Definition is_hourly (entry : string * string) : Prop :=
  exists m, 0 <= m <= 59 /\ CronTrigger.from_crontab (snd entry) = Ok (hourly_at m).

(** A schedule entry whose rule [from_crontab] accepts. *)
Definition parses (entry : string * string) : Prop :=
  exists trigger, CronTrigger.from_crontab (snd entry) = Ok trigger.

(** The last fire time of the rule [m * * * *] that is not after [now]:
    minute [m] of the hour of [now], or of the hour before. *)
Definition last_hourly_fire (m : Z) (now : datetime) : datetime :=
  (now / MINUTE - (now / MINUTE - m) mod 60) * MINUTE.

(** The names of the three identifiers that [int] reads. *)
Definition identifier_keys : list string := ["GUILD_ID"; "CHANNEL_ID"; "NOTIFIER_ROLE_ID"].

(** ** Instants and inputs used in examples *)

(** 2026-01-01T12:00:00Z, a whole hour. *)
Definition noon : datetime := 1767268800 * SECOND.

(** The trigger of ["0 * * * *"] and the trigger of ["* * * * *"]. *)
Definition every_hour : CronTrigger.t :=
  {| CronTrigger.minute := [CronTrigger.RangeExpression 0 (Some 0) None];
     CronTrigger.hour := [CronTrigger.AllExpression None];
     CronTrigger.day := [CronTrigger.AllExpression None];
     CronTrigger.month := [CronTrigger.AllExpression None];
     CronTrigger.day_of_week := [CronTrigger.AllExpression None] |}.

Definition every_minute : CronTrigger.t :=
  {| CronTrigger.minute := [CronTrigger.AllExpression None];
     CronTrigger.hour := [CronTrigger.AllExpression None];
     CronTrigger.day := [CronTrigger.AllExpression None];
     CronTrigger.month := [CronTrigger.AllExpression None];
     CronTrigger.day_of_week := [CronTrigger.AllExpression None] |}.

(** A tick one minute after [noon]: the readings of the clock, and the
    entries the loop over the schedule gathers from them. *)
Definition tick_now : datetime := noon + 60 * SECOND.

Definition tick_clock (k : nat) : datetime * datetime :=
  (tick_now + 1 + Z.of_nat k, tick_now + 2 + Z.of_nat k).

Definition tick_events : list event :=
  Eval vm_compute in
    match events_loop EVENT_SCHEDULE tick_clock 0 with
    | Ok l => l
    | Raise _ => []
    end.

(** A notification job and a run of it that registers its message a
    quarter of a second after the fire time. *)
Definition ping_message : Message :=
  {| message_id := 1001; author_id := 1; content := "ping"; embeds := [] |}.

Definition easy_job : job :=
  {| job_trigger := every_hour;
     job_channel := Some {| channel_id := 42 |};
     job_role_id := 7;
     job_event_name := "Easy Dungeon" |}.

Definition late_run : job_run :=
  {| fire_time := noon;
     run_send_outcome := Ok ping_message;
     run_now := noon + 250000 |}.

(** A configuration, a state that tracks a display message with the task
    loop running, and a tick on which the edit of that message fails with
    [NotFound] while the history holds no schedule message and a send
    would succeed. *)
Definition example_config : config :=
  {| BOT_TOKEN := Some "token"; GUILD_ID := 1; CHANNEL_ID := 42; NOTIFIER_ROLE_ID := 7 |}.

Definition stale_message : Message :=
  {| message_id := 500; author_id := 9; content := ""; embeds := [initial_embed] |}.

Definition fresh_message : Message :=
  {| message_id := 501; author_id := 9; content := ""; embeds := [initial_embed] |}.

Definition tracking_state : state :=
  {| persistent_message := Some stale_message;
     active_ping_messages := ∅;
     update_embed_loop := {| Loop.task_running := true; Loop.stop_next_iteration := false |};
     scheduler_running := true;
     scheduler_jobs := ∅;
     trace := [] |}.

Definition deleted_env : tick_env :=
  {| delete_outcome := fun _ => Ok tt;
     now_cleanup := tick_now;
     now_tick := tick_now;
     clock := tick_clock;
     edit_outcome := Raise NotFound;
     recovery := {| client_user_id := 9;
                    get_channel := Some {| channel_id := 42 |};
                    history_outcome := Ok [];
                    send_embed_outcome := Ok fresh_message |} |}.

(** The same tick with an edit that fails for lack of permission. *)
Definition forbidden_env : tick_env :=
  {| delete_outcome := delete_outcome deleted_env;
     now_cleanup := now_cleanup deleted_env;
     now_tick := now_tick deleted_env;
     clock := clock deleted_env;
     edit_outcome := Raise Forbidden;
     recovery := recovery deleted_env |}.

(** A first [on_ready], with the bot in its server and an empty channel. *)
Definition ready_example : ready_env :=
  {| user_name := "notifier";
     guild_found := true;
     ready_setup := recovery deleted_env |}.

(** An environment in which only [GUILD_ID] is not set. *)
Definition environ_without_guild : gmap string string :=
  <["BOT_TOKEN" := "token"]> (<["CHANNEL_ID" := "42"]> (<["NOTIFIER_ROLE_ID" := "7"]> ∅)).

(** * Properties *)

(** ** Bounded minimisation and the next fire time *)

Lemma first_in_spec (f : Z -> bool) (w : positive) :
  forall lo,
    match CronTrigger.first_in f w lo with
    | Some x => lo <= x < lo + Z.pos w /\ f x = true /\ forall y, lo <= y < x -> f y = false
    | None => forall y, lo <= y < lo + Z.pos w -> f y = false
    end.
Proof.
  induction w as [w IH | w IH | ]; intros lo; simpl.
  - destruct (f lo) eqn:Hlo.
    + repeat split; [lia | lia | exact Hlo | intros; lia].
    + pose proof (IH (lo + 1)) as H1.
      destruct (CronTrigger.first_in f w (lo + 1)) as [x|].
      * destruct H1 as (Hr & Hx & Hmin). repeat split; [lia | lia | exact Hx |].
        intros y Hy. destruct (Z.eq_dec y lo) as [-> | Hne]; [exact Hlo | apply Hmin; lia].
      * pose proof (IH (lo + 1 + Z.pos w)) as H2.
        destruct (CronTrigger.first_in f w (lo + 1 + Z.pos w)) as [x|].
        -- destruct H2 as (Hr & Hx & Hmin). repeat split; [lia | lia | exact Hx |].
           intros y Hy. destruct (Z.eq_dec y lo) as [-> | Hne]; [exact Hlo |].
           destruct (Z_lt_dec y (lo + 1 + Z.pos w)); [apply H1; lia | apply Hmin; lia].
        -- intros y Hy. destruct (Z.eq_dec y lo) as [-> | Hne]; [exact Hlo |].
           destruct (Z_lt_dec y (lo + 1 + Z.pos w)); [apply H1; lia | apply H2; lia].
  - pose proof (IH lo) as H1.
    destruct (CronTrigger.first_in f w lo) as [x|].
    + destruct H1 as (Hr & Hx & Hmin). repeat split; [lia | lia | exact Hx | exact Hmin].
    + pose proof (IH (lo + Z.pos w)) as H2.
      destruct (CronTrigger.first_in f w (lo + Z.pos w)) as [x|].
      * destruct H2 as (Hr & Hx & Hmin). repeat split; [lia | lia | exact Hx |].
        intros y Hy. destruct (Z_lt_dec y (lo + Z.pos w)); [apply H1; lia | apply Hmin; lia].
      * intros y Hy. destruct (Z_lt_dec y (lo + Z.pos w)); [apply H1; lia | apply H2; lia].
  - destruct (f lo) eqn:Hlo.
    + repeat split; [lia | lia | exact Hlo | intros; lia].
    + intros y Hy. assert (y = lo) as -> by lia. exact Hlo.
Qed.

Lemma first_between_spec (f : Z -> bool) (lo hi : Z) :
  match CronTrigger.first_between f lo hi with
  | Some x => lo <= x < hi /\ f x = true /\ forall y, lo <= y < x -> f y = false
  | None => forall y, lo <= y < hi -> f y = false
  end.
Proof.
  unfold CronTrigger.first_between.
  destruct (hi - lo) as [ | w | w] eqn:Hw.
  - intros y Hy. lia.
  - pose proof (first_in_spec f w lo) as H.
    destruct (CronTrigger.first_in f w lo) as [x|].
    + destruct H as (Hr & Hx & Hmin). repeat split; [lia | lia | exact Hx | exact Hmin].
    + intros y Hy. apply H. lia.
  - intros y Hy. lia.
Qed.

Lemma fires_at_range (tr : CronTrigger.t) (m : Z) :
  CronTrigger.fires_at tr m = true -> 0 <= m < CronTrigger.MAX_MINUTE.
Proof.
  unfold CronTrigger.fires_at.
  destruct (CronTrigger.civil_from_days (m / 1440)) as [[y mo] d].
  intros H. repeat (apply andb_prop in H; destruct H as [H ?]).
  apply Z.leb_le in H. split; [exact H | apply Z.ltb_lt; assumption].
Qed.

(** Rounding up to the second and then to the minute is rounding up to the
    minute: the first candidate minute is the least one not before [start]. *)
Lemma first_minute_spec (start : datetime) :
  let m0 := - ((- CronTrigger.datetime_ceil start) / MINUTE) in
  start <= m0 * MINUTE /\ forall k, start <= k * MINUTE -> m0 <= k.
Proof.
  unfold CronTrigger.datetime_ceil, MINUTE, SECOND. cbv zeta.
  pose proof (Z.div_mod (- start) 1000000 ltac:(lia)) as H1.
  pose proof (Z.mod_pos_bound (- start) 1000000 ltac:(lia)) as B1.
  set (q := (- start) / 1000000) in *.
  replace (- (- q * 1000000)) with (q * 1000000) by lia.
  pose proof (Z.div_mod (q * 1000000) (60 * 1000000) ltac:(lia)) as H2.
  pose proof (Z.mod_pos_bound (q * 1000000) (60 * 1000000) ltac:(lia)) as B2.
  set (p := (q * 1000000) / (60 * 1000000)) in *.
  split; [lia | intros k Hk; lia].
Qed.

Lemma is_fire_time_minute (tr : CronTrigger.t) (u : datetime) :
  CronTrigger.is_fire_time tr u ->
  u = (u / MINUTE) * MINUTE /\ CronTrigger.fires_at tr (u / MINUTE) = true.
Proof.
  intros [Hmod Hf]. split; [| exact Hf].
  pose proof (Z.div_mod u MINUTE ltac:(unfold MINUTE, SECOND; lia)). lia.
Qed.

Lemma fire_time_of_minute (tr : CronTrigger.t) (m : Z) :
  CronTrigger.fires_at tr m = true -> CronTrigger.is_fire_time tr (m * MINUTE).
Proof.
  intros H. unfold CronTrigger.is_fire_time.
  rewrite Z.mod_mul by (unfold MINUTE, SECOND; lia).
  rewrite Z.div_mul by (unfold MINUTE, SECOND; lia). auto.
Qed.

(** [get_next_fire_time(None, start)] gives the least fire time that is
    not before [start]. *)
Lemma get_next_fire_time_Some (tr : CronTrigger.t) (start t : datetime) :
  CronTrigger.get_next_fire_time tr start = Some t ->
  start <= t /\ CronTrigger.is_fire_time tr t
  /\ forall u, CronTrigger.is_fire_time tr u -> start <= u -> t <= u.
Proof.
  unfold CronTrigger.get_next_fire_time. cbv zeta.
  pose proof (first_minute_spec start) as [Hm0 Hleast]. cbv zeta in Hleast.
  set (m0 := - ((- CronTrigger.datetime_ceil start) / MINUTE)) in *.
  pose proof (first_between_spec (CronTrigger.fires_at tr) (Z.max 0 m0)
                CronTrigger.MAX_MINUTE) as H.
  destruct (CronTrigger.first_between _ _ _) as [m|]; [| discriminate].
  intros [= <-]. destruct H as (Hr & Hf & Hmin).
  split; [unfold MINUTE, SECOND in *; lia |].
  split; [apply fire_time_of_minute; exact Hf |].
  intros u Hu Hsu. apply is_fire_time_minute in Hu as [Hu Hfu].
  set (k := u / MINUTE) in *.
  assert (m0 <= k) by (apply Hleast; lia).
  pose proof (fires_at_range _ _ Hfu).
  destruct (Z_lt_dec k m) as [Hlt | Hge].
  - rewrite Hmin in Hfu by lia. discriminate.
  - rewrite Hu. unfold MINUTE, SECOND. lia.
Qed.

(** It gives [None] only when no fire time is left from [start] on. *)
Lemma get_next_fire_time_None (tr : CronTrigger.t) (start : datetime) :
  CronTrigger.get_next_fire_time tr start = None ->
  forall u, CronTrigger.is_fire_time tr u -> u < start.
Proof.
  unfold CronTrigger.get_next_fire_time. cbv zeta.
  pose proof (first_minute_spec start) as [Hm0 Hleast]. cbv zeta in Hleast.
  set (m0 := - ((- CronTrigger.datetime_ceil start) / MINUTE)) in *.
  pose proof (first_between_spec (CronTrigger.fires_at tr) (Z.max 0 m0)
                CronTrigger.MAX_MINUTE) as H.
  destruct (CronTrigger.first_between _ _ _) as [m|]; [discriminate |].
  intros _ u Hu. apply is_fire_time_minute in Hu as [Hu Hfu].
  destruct (Z_lt_dec u start) as [|Hge]; [assumption | exfalso].
  set (k := u / MINUTE) in *.
  assert (m0 <= k) by (apply Hleast; lia).
  pose proof (fires_at_range _ _ Hfu).
  rewrite H in Hfu by lia. discriminate.
Qed.

(** ** The recurrence clock: [get_next_run_time] *)

(** C3, as stated, fails: at an instant that is itself a fire time of the
    rule, [get_next_run_time] returns that instant, which is not strictly
    greater than [now].  Here the rule fires at minute 0 of every hour and
    [now] is 12:00:00.000000 exactly. *)
Lemma next_run_time_at_fire_time :
  get_next_run_time "0 * * * *" noon = Ok (Some noon) /\ ~ (noon < noon).
Proof. split; [vm_compute; reflexivity | lia]. Qed.

(** C3, amended: for every rule that [from_crontab] accepts and every
    instant [now], [get_next_run_time] returns the smallest fire time of the
    rule that is not before [now]: it is a fire time, no fire time lies in
    between, it is strictly greater than [now] unless [now] is itself a fire
    time (and then it is [now]); it returns [None] only when the rule has no
    fire time from [now] on (fire times end with year 9999), and it does not
    raise. *)
Theorem next_run_time_is_least_fire_time (cron_str : string) (trigger : CronTrigger.t)
  (now : datetime) :
  CronTrigger.from_crontab cron_str = Ok trigger ->
  match get_next_run_time cron_str now with
  | Ok (Some t) =>
      now <= t
      /\ CronTrigger.is_fire_time trigger t
      /\ (forall u, CronTrigger.is_fire_time trigger u -> now <= u -> t <= u)
      /\ (CronTrigger.is_fire_time trigger now <-> t = now)
  | Ok None => forall u, CronTrigger.is_fire_time trigger u -> u < now
  | Raise _ => False
  end.
Proof.
  intros Hparse. unfold get_next_run_time. rewrite Hparse. simpl.
  destruct (CronTrigger.get_next_fire_time trigger now) as [t|] eqn:Hnext.
  - apply get_next_fire_time_Some in Hnext as (Hle & Hfire & Hleast).
    split; [exact Hle |]. split; [exact Hfire |]. split; [exact Hleast |].
    split.
    + intros Hnow. specialize (Hleast now Hnow). lia.
    + intros ->. exact Hfire.
  - apply get_next_fire_time_None. exact Hnext.
Qed.

(** An input at which the hypotheses of [next_run_time_is_least_fire_time] hold. *)
Lemma next_run_time_is_least_fire_time_witness :
  CronTrigger.from_crontab "0 * * * *" = Ok every_hour
  /\ match get_next_run_time "0 * * * *" (noon + 1) with
     | Ok (Some t) =>
         noon + 1 <= t
         /\ CronTrigger.is_fire_time every_hour t
         /\ (forall u, CronTrigger.is_fire_time every_hour u -> noon + 1 <= u -> t <= u)
         /\ (CronTrigger.is_fire_time every_hour (noon + 1) <-> t = noon + 1)
     | Ok None => forall u, CronTrigger.is_fire_time every_hour u -> u < noon + 1
     | Raise _ => False
     end.
Proof.
  assert (CronTrigger.from_crontab "0 * * * *" = Ok every_hour) as Hparse
    by (vm_compute; reflexivity).
  split; [exact Hparse |].
  exact (next_run_time_is_least_fire_time "0 * * * *" every_hour (noon + 1) Hparse).
Defined.

(** ** The recurrence clock: [get_previous_run_time] *)

(** C2, at the input where the code departs from it: the rule fires every
    minute and [now] is 12:00:00.000000 exactly.  12:00:00 is a fire time
    and is not after [now], yet the scan returns 11:59:00: its first probe
    asks for the next fire time from [now - 1 minute], finds 11:59:00, and
    stops there. *)
Lemma previous_run_time_misses_fire_at_now :
  CronTrigger.from_crontab "* * * * *" = Ok every_minute
  /\ CronTrigger.is_fire_time every_minute noon
  /\ get_previous_run_time "* * * * *" noon = Ok (Some (noon - MINUTE)).
Proof.
  split; [vm_compute; reflexivity |].
  split; [vm_compute; split; reflexivity | vm_compute; reflexivity].
Qed.

(** C7, at the input where the code departs from it: the rule fires every
    minute (a period of 60 seconds); at 12:00:30 the scan returns 12:00:00,
    and fed 12:00:00 as [now] it returns 11:59:00. *)
Lemma previous_run_time_not_idempotent :
  get_previous_run_time "* * * * *" (noon + 30 * SECOND) = Ok (Some noon)
  /\ get_previous_run_time "* * * * *" noon = Ok (Some (noon - MINUTE))
  /\ noon - MINUTE <> noon.
Proof.
  split; [vm_compute; reflexivity |].
  split; [vm_compute; reflexivity | vm_compute; discriminate].
Qed.

Lemma range_nil (a : Z) : range a a = [].
Proof. unfold range. rewrite Z.sub_diag. reflexivity. Qed.

Lemma range_cons (a b : Z) : a < b -> range a b = a :: range (a + 1) b.
Proof.
  intros Hab. unfold range.
  replace (Z.to_nat (b - a)) with (S (Z.to_nat (b - (a + 1)))) by lia.
  cbn [seq map]. f_equal; [lia |].
  rewrite <- seq_shift, map_map. apply map_ext. intros i. lia.
Qed.

(** Two fire times are whole minutes: a later one is a minute later at least. *)
Lemma fire_times_apart (tr : CronTrigger.t) (t u : datetime) :
  CronTrigger.is_fire_time tr t -> CronTrigger.is_fire_time tr u -> t < u ->
  t + MINUTE <= u.
Proof.
  intros Ht Hu Hlt.
  apply is_fire_time_minute in Ht as [Ht _]. apply is_fire_time_minute in Hu as [Hu _].
  revert Ht Hu Hlt. generalize (t / MINUTE) (u / MINUTE). unfold MINUTE, SECOND.
  intros a b -> ->. lia.
Qed.

(** The probes after the first: when no fire time lies in the last [k - 1]
    minutes, the scan from probe [k] on returns the latest fire time that
    is not after [now], or [None] when the last 120 minutes hold none. *)
Lemma scan_back_tail (tr : CronTrigger.t) (now : datetime) :
  forall (n : nat) (k : Z),
    Z.of_nat n = 121 - k -> 2 <= k ->
    (forall u, CronTrigger.is_fire_time tr u ->
               ~ (now - (k - 1) * MINUTE <= u <= now)) ->
    match scan_back tr now (range k 121) with
    | Some t =>
        CronTrigger.is_fire_time tr t /\ now - 7200 * SECOND <= t <= now
        /\ forall u, CronTrigger.is_fire_time tr u -> u <= now -> u <= t
    | None =>
        forall u, CronTrigger.is_fire_time tr u -> ~ (now - 7200 * SECOND <= u <= now)
    end.
Proof.
  induction n as [| n IH]; intros k Hn Hk Hnone.
  - assert (k = 121) as -> by lia. rewrite range_nil. simpl.
    intros u Hu Hin. apply (Hnone u Hu). unfold MINUTE, SECOND in *. lia.
  - rewrite range_cons by lia. cbn [scan_back]. unfold timedelta_minutes.
    destruct (CronTrigger.get_next_fire_time tr (now - k * MINUTE)) as [t|] eqn:Hnext.
    + apply get_next_fire_time_Some in Hnext as (Hge & Hfire & Hleast).
      destruct ((t <=? now) && (now - t <=? 7200 * SECOND)) eqn:Hcond.
      * apply andb_prop in Hcond as [H1 H2].
        apply Z.leb_le in H1. apply Z.leb_le in H2.
        split; [exact Hfire |]. split; [lia |].
        intros u Hu Hle. destruct (Z_le_dec u t) as [|Hgt]; [assumption | exfalso].
        pose proof (fire_times_apart tr t u Hfire Hu ltac:(lia)).
        apply (Hnone u Hu). unfold MINUTE, SECOND in *. lia.
      * assert (now < t) as Hlate.
        { apply andb_false_iff in Hcond as [H1 | H2].
          - apply Z.leb_gt in H1. exact H1.
          - apply Z.leb_gt in H2. unfold MINUTE, SECOND in *. lia. }
        apply (IH (k + 1)); [lia | lia |].
        intros u Hu Hin. specialize (Hleast u Hu).
        unfold MINUTE, SECOND in *. lia.
    + apply (IH (k + 1)); [lia | lia |].
      intros u Hu Hin. pose proof (get_next_fire_time_None _ _ Hnext u Hu).
      unfold MINUTE, SECOND in *. lia.
Qed.

(** What the scan of [get_previous_run_time] computes, for every trigger and
    every [now]. *)
Lemma scan_back_spec (tr : CronTrigger.t) (now : datetime) :
  match scan_back tr now (range 1 121) with
  | Some t =>
      CronTrigger.is_fire_time tr t /\ now - 7200 * SECOND <= t <= now
      /\ forall u, CronTrigger.is_fire_time tr u -> t < u <= now ->
                   u = now /\ t = now - MINUTE
  | None =>
      forall u, CronTrigger.is_fire_time tr u -> ~ (now - 7200 * SECOND <= u <= now)
  end.
Proof.
  rewrite range_cons by lia. cbn [scan_back]. unfold timedelta_minutes.
  replace (1 + 1) with 2 by lia.
  assert (forall t, CronTrigger.get_next_fire_time tr (now - 1 * MINUTE) = Some t ->
                    now < t ->
                    forall u, CronTrigger.is_fire_time tr u ->
                              ~ (now - (2 - 1) * MINUTE <= u <= now)) as Hlate.
  { intros t Hnext Hlt u Hu Hin.
    apply get_next_fire_time_Some in Hnext as (_ & _ & Hleast).
    specialize (Hleast u Hu). lia. }
  pose proof (scan_back_tail tr now 119 2 ltac:(lia) ltac:(lia)) as Htail.
  destruct (CronTrigger.get_next_fire_time tr (now - 1 * MINUTE)) as [t|] eqn:Hnext.
  - destruct ((t <=? now) && (now - t <=? 7200 * SECOND)) eqn:Hcond.
    + apply get_next_fire_time_Some in Hnext as (Hge & Hfire & Hleast).
      apply andb_prop in Hcond as [H1 H2].
      apply Z.leb_le in H1. apply Z.leb_le in H2.
      split; [exact Hfire |]. split; [lia |].
      intros u Hu Hin.
      pose proof (fire_times_apart tr t u Hfire Hu ltac:(lia)). lia.
    + assert (now < t) as Hlt.
      { apply get_next_fire_time_Some in Hnext as (Hge & _ & _).
        apply andb_false_iff in Hcond as [H1 | H2].
        - apply Z.leb_gt in H1. exact H1.
        - apply Z.leb_gt in H2. unfold MINUTE, SECOND in *. lia. }
      specialize (Htail (Hlate t eq_refl Hlt)).
      destruct (scan_back tr now (range 2 121)) as [r|]; [| exact Htail].
      destruct Htail as (Hf & Hw & Hmax).
      split; [exact Hf |]. split; [exact Hw |].
      intros u Hu Hin. specialize (Hmax u Hu). lia.
  - assert (forall u, CronTrigger.is_fire_time tr u ->
                      ~ (now - (2 - 1) * MINUTE <= u <= now)) as Hnone.
    { intros u Hu Hin. pose proof (get_next_fire_time_None _ _ Hnext u Hu). lia. }
    specialize (Htail Hnone).
    destruct (scan_back tr now (range 2 121)) as [r|]; [| exact Htail].
    destruct Htail as (Hf & Hw & Hmax).
    split; [exact Hf |]. split; [exact Hw |].
    intros u Hu Hin. specialize (Hmax u Hu). lia.
Qed.

(** ** Countdown formatting *)

Lemma Qfloor_unique (x : Q) (z : Z) :
  (inject_Z z <= x)%Q -> (x < inject_Z (z + 1))%Q -> Qfloor x = z.
Proof.
  intros Hle Hlt.
  pose proof (Qfloor_le x) as H1. pose proof (Qlt_floor x) as H2.
  assert (z < Qfloor x + 1).
  { rewrite Zlt_Qlt. eapply Qle_lt_trans; eauto. }
  assert (Qfloor x < z + 1).
  { rewrite Zlt_Qlt. eapply Qle_lt_trans; eauto. }
  lia.
Qed.

Lemma Qfloor_add_Z (x : Q) (z : Z) : Qfloor (x + inject_Z z) = Qfloor x + z.
Proof.
  apply Qfloor_unique.
  - rewrite inject_Z_plus. pose proof (Qfloor_le x). 
    apply Qplus_le_compat; [assumption | apply Qle_refl].
  - replace (Qfloor x + z + 1) with ((Qfloor x + 1) + z) by lia.
    rewrite inject_Z_plus. pose proof (Qlt_floor x).
    apply Qplus_lt_le_compat; [assumption | apply Qle_refl].
Qed.

Lemma Qfloor_div_pos (x : Q) (c : positive) :
  Qfloor (x / inject_Z (Z.pos c)) = Qfloor x / Z.pos c.
Proof.
  destruct x as [n d]. unfold Qdiv, Qmult, Qinv, inject_Z. simpl.
  rewrite Z.mul_1_r, Pos2Z.inj_mul. rewrite Z.div_div by lia. reflexivity.
Qed.

Lemma int_inject_Z (z : Z) : int (inject_Z z) = z.
Proof. unfold int. destruct (Qle_bool 0 (inject_Z z)); [apply Qfloor_Z | apply Qceiling_Z]. Qed.

Lemma int_floor_nonneg (x : Q) : 0 <= Qfloor x -> int x = Qfloor x.
Proof.
  intros H. unfold int.
  assert (0 <= x)%Q as Hx.
  { eapply Qle_trans; [| apply Qfloor_le]. change 0%Q with (inject_Z 0).
    rewrite <- Zle_Qle. exact H. }
  apply Qle_bool_iff in Hx. rewrite Hx. reflexivity.
Qed.

Lemma floordiv_pos (x : Q) (c : positive) :
  floordiv x (inject_Z (Z.pos c)) = inject_Z (Qfloor x / Z.pos c).
Proof. unfold floordiv. rewrite Qfloor_div_pos. reflexivity. Qed.

Lemma Qfloor_modulo (x : Q) (c : positive) :
  Qfloor (modulo x (inject_Z (Z.pos c))) = Qfloor x mod Z.pos c.
Proof.
  unfold modulo. rewrite floordiv_pos.
  rewrite (Qfloor_comp _ (x + inject_Z (- (Z.pos c * (Qfloor x / Z.pos c))))).
  - rewrite Qfloor_add_Z. rewrite Z.mod_eq by lia. lia.
  - rewrite inject_Z_opp, inject_Z_mult. reflexivity.
Qed.

Lemma int_modulo (x : Q) (c : positive) :
  int (modulo x (inject_Z (Z.pos c))) = Qfloor x mod Z.pos c.
Proof.
  rewrite int_floor_nonneg; rewrite Qfloor_modulo; [reflexivity |].
  apply Z.mod_pos_bound. lia.
Qed.

(** C10: for every number [s], [format_countdown s] is ["0s"] when
    [s <= 0]; the whole seconds and ["s"] when [0 < s < 60]; minutes and
    seconds when [60 <= s < 3600]; hours, minutes and seconds when
    [s >= 3600].  Every component is the integer part of [s] (its floor)
    divided and reduced in integers: nothing is rounded.  In particular
    0, 45, 125 and 3725 give ["0s"], ["45s"], ["2m 5s"] and ["1h 2m 5s"]. *)
Theorem format_countdown_cases (s : Q) :
  ((s <= 0)%Q -> format_countdown s = "0s")
  /\ ((0 < s)%Q /\ (s < 60)%Q -> format_countdown s = pretty (Qfloor s) +:+ "s")
  /\ ((60 <= s)%Q /\ (s < 3600)%Q ->
      format_countdown s
      = pretty (Qfloor s / 60) +:+ "m " +:+ pretty (Qfloor s mod 60) +:+ "s")
  /\ ((3600 <= s)%Q ->
      format_countdown s
      = pretty (Qfloor s / 3600) +:+ "h " +:+ pretty ((Qfloor s mod 3600) / 60) +:+ "m "
        +:+ pretty (Qfloor s mod 60) +:+ "s")
  /\ format_countdown 0 = "0s"
  /\ format_countdown 45 = "45s"
  /\ format_countdown 125 = "2m 5s"
  /\ format_countdown 3725 = "1h 2m 5s".
Proof.
  assert (forall a b : Q, (a < b)%Q -> Qle_bool b a = false) as Hnle.
  { intros a b Hlt. destruct (Qle_bool b a) eqn:E; [| reflexivity].
    apply Qle_bool_iff in E. exfalso. apply (Qlt_not_le _ _ Hlt E). }
  assert (forall a b : Q, (a <= b)%Q -> Qle_bool a b = true) as Hle
    by (intros a b; apply Qle_bool_iff).
  change 60%Q with (inject_Z 60). change 3600%Q with (inject_Z 3600).
  split; [| split; [| split; [| split]]].
  - intros H. unfold format_countdown. rewrite (Hle _ _ H). reflexivity.
  - intros [H0 H60]. unfold format_countdown.
    rewrite (Hnle _ _ H0).
    change 3600%Q with (inject_Z 3600). change 60%Q with (inject_Z 60).
    rewrite (Hnle s (inject_Z 3600)) by (eapply Qlt_trans; [exact H60 | reflexivity]).
    rewrite (Hnle _ _ H60).
    rewrite int_floor_nonneg; [reflexivity |].
    change 0 with (Qfloor 0). apply Qfloor_resp_le. apply Qlt_le_weak. exact H0.
  - intros [H60 H3600]. unfold format_countdown.
    rewrite (Hnle 0%Q s) by (eapply Qlt_le_trans; [| exact H60]; reflexivity).
    change 3600%Q with (inject_Z 3600). change 60%Q with (inject_Z 60).
    rewrite (Hnle _ _ H3600). rewrite (Hle _ _ H60).
    cbv zeta. rewrite floordiv_pos, int_inject_Z, int_modulo. reflexivity.
  - intros H3600. unfold format_countdown.
    rewrite (Hnle 0%Q s) by (eapply Qlt_le_trans; [| exact H3600]; reflexivity).
    change 3600%Q with (inject_Z 3600). change 60%Q with (inject_Z 60).
    rewrite (Hle _ _ H3600).
    cbv zeta. rewrite !floordiv_pos, !int_inject_Z, int_modulo, Qfloor_modulo.
    reflexivity.
  - repeat split; vm_compute; reflexivity.
Qed.

(** ** The event classifier *)

Lemma active_window_Some (now : datetime) (ev : event) (r : timedelta) :
  active_window now ev = Some r <->
  exists prev, prev_time ev = Some prev /\ 0 <= now - prev <= 120 * SECOND
               /\ r = 120 * SECOND - (now - prev).
Proof.
  unfold active_window. destruct (prev_time ev) as [prev|].
  - destruct ((0 <=? now - prev) && (now - prev <=? 120 * SECOND)) eqn:Hc.
    + apply andb_prop in Hc as [H1 H2]. apply Z.leb_le in H1. apply Z.leb_le in H2.
      split.
      * intros [= <-]. exists prev. auto.
      * intros (p & [= <-] & _ & ->). reflexivity.
    + split; [discriminate |].
      intros (p & [= <-] & [H1 H2] & _).
      apply Z.leb_le in H1. apply Z.leb_le in H2. rewrite H1, H2 in Hc. discriminate.
  - split; [discriminate | intros (p & Hp & _); discriminate].
Qed.

Lemma active_window_None (now : datetime) (ev : event) :
  active_window now ev = None <->
  ~ exists prev, prev_time ev = Some prev /\ 0 <= now - prev <= 120 * SECOND.
Proof.
  split.
  - intros Hn (prev & Hp & Hr).
    assert (active_window now ev = Some (120 * SECOND - (now - prev))) as Hs
      by (apply active_window_Some; eauto).
    congruence.
  - intros Hn. destruct (active_window now ev) as [r|] eqn:Hw; [| reflexivity].
    exfalso. apply Hn. apply active_window_Some in Hw as (prev & ? & ? & _). eauto.
Qed.

Lemma classify_active (now : datetime) (l : list event) (a : active_event) :
  In a (fst (classify now l)) <->
  In (active_of a) l /\ active_window now (active_of a) = Some (time_remaining a).
Proof.
  induction l as [| ev l IH]; simpl.
  - tauto.
  - destruct (classify now l) as [active upcoming]. simpl in IH.
    destruct (active_window now ev) as [r|] eqn:Hw; simpl.
    + rewrite IH. split.
      * intros [<- | [H1 H2]]; simpl; auto.
      * intros [[-> | H1] H2]; [| auto].
        left. destruct a as [e r']. simpl in *. congruence.
    + rewrite IH. split.
      * intros [H1 H2]. auto.
      * intros [[-> | H1] H2]; [congruence | auto].
Qed.

Lemma classify_upcoming (now : datetime) (l : list event) (ev : event) :
  In ev (snd (classify now l)) <-> In ev l /\ active_window now ev = None.
Proof.
  induction l as [| e l IH]; simpl.
  - tauto.
  - destruct (classify now l) as [active upcoming]. simpl in IH.
    destruct (active_window now e) as [r|] eqn:Hw; simpl.
    + rewrite IH. split.
      * intros [H1 H2]. auto.
      * intros [[-> | H1] H2]; [congruence | auto].
    + rewrite IH. split.
      * intros [<- | [H1 H2]]; auto.
      * intros [[-> | H1] H2]; auto.
Qed.

(** What the loop over the schedule gathers: an entry for each rule whose
    next run is not [None], built from the two queries made for that rule,
    and nothing else. *)
Lemma events_loop_spec (schedule : list (string * string))
  (clock : nat -> datetime * datetime) :
  forall (k : nat) (events_info : list event),
    events_loop schedule clock k = Ok events_info ->
    (forall (i : nat) nm sched, schedule !! i = Some (nm, sched) ->
       exists next_run prev_run,
         get_next_run_time sched (fst (clock (k + i)%nat)) = Ok next_run
         /\ get_previous_run_time sched (snd (clock (k + i)%nat)) = Ok prev_run
         /\ forall n, next_run = Some n ->
              In {| name := nm; next_time := n; prev_time := prev_run |} events_info)
    /\ (forall ev, In ev events_info ->
          exists (i : nat) sched,
            schedule !! i = Some (name ev, sched)
            /\ get_next_run_time sched (fst (clock (k + i)%nat)) = Ok (Some (next_time ev))
            /\ get_previous_run_time sched (snd (clock (k + i)%nat)) = Ok (prev_time ev)).
Proof.
  induction schedule as [| [nm0 sched0] rest IH]; intros k events_info Hloop.
  - simpl in Hloop. injection Hloop as <-. split.
    + intros i nm sched Hi. discriminate.
    + intros ev [].
  - simpl in Hloop.
    destruct (get_next_run_time sched0 (fst (clock k))) as [next_run|] eqn:Hn;
      [| discriminate].
    destruct (get_previous_run_time sched0 (snd (clock k))) as [prev_run|] eqn:Hp;
      [| discriminate].
    destruct (events_loop rest clock (S k)) as [tail|] eqn:Ht; [| discriminate].
    simpl in Hloop. injection Hloop as <-.
    destruct (IH (S k) tail Ht) as [IH1 IH2]. clear IH. split.
    + intros [| i] nm sched Hi.
      * injection Hi as <- <-. rewrite Nat.add_0_r.
        exists next_run, prev_run. split; [exact Hn |]. split; [exact Hp |].
        intros n ->. left. reflexivity.
      * destruct (IH1 i nm sched Hi) as (nr & pr & H1 & H2 & H3).
        replace (k + S i)%nat with (S k + i)%nat by lia.
        exists nr, pr. split; [exact H1 |]. split; [exact H2 |].
        intros n Hnr. specialize (H3 n Hnr).
        destruct next_run; [right |]; exact H3.
    + intros ev Hev.
      assert (In ev tail \/ (exists n, next_run = Some n /\
                ev = {| name := nm0; next_time := n; prev_time := prev_run |})) as [Hin | Hhd].
      { destruct next_run as [n|]; [| left; exact Hev].
        destruct Hev as [<- | Hin]; [right; eauto | left; exact Hin]. }
      * destruct (IH2 ev Hin) as (i & sched & H1 & H2 & H3).
        exists (S i), sched. replace (k + S i)%nat with (S k + i)%nat by lia. auto.
      * destruct Hhd as (n & -> & ->). exists 0%nat, sched0. rewrite Nat.add_0_r. auto.
Qed.

(** The entries of [events_info] under a name of the schedule, when the
    names of the schedule are distinct (it is a dict). *)
Lemma events_loop_named (schedule : list (string * string))
  (clock : nat -> datetime * datetime) (events_info : list event)
  (i : nat) (nm sched : string) :
  NoDup (schedule.*1) ->
  events_loop schedule clock 0 = Ok events_info ->
  schedule !! i = Some (nm, sched) ->
  exists next_run prev_run,
    get_next_run_time sched (fst (clock i)) = Ok next_run
    /\ get_previous_run_time sched (snd (clock i)) = Ok prev_run
    /\ (forall n, next_run = Some n ->
          In {| name := nm; next_time := n; prev_time := prev_run |} events_info)
    /\ (forall ev, In ev events_info -> name ev = nm ->
          exists n, next_run = Some n
                    /\ ev = {| name := nm; next_time := n; prev_time := prev_run |}).
Proof.
  intros Hnodup Hloop Hi.
  destruct (events_loop_spec schedule clock 0 events_info Hloop) as [H1 H2].
  destruct (H1 i nm sched Hi) as (next_run & prev_run & Hn & Hp & Hin).
  simpl in Hn, Hp. exists next_run, prev_run.
  split; [exact Hn |]. split; [exact Hp |]. split; [exact Hin |].
  intros ev Hev Hname.
  destruct (H2 ev Hev) as (j & sched' & Hj & Hn' & Hp'). simpl in Hn', Hp'.
  assert (j = i) as ->.
  { apply (NoDup_lookup (schedule.*1) j i nm Hnodup).
    - rewrite list_lookup_fmap, Hj. simpl. congruence.
    - rewrite list_lookup_fmap, Hi. reflexivity. }
  rewrite Hi in Hj. injection Hj as Hnm <-.
  rewrite Hn in Hn'. rewrite Hp in Hp'.
  injection Hn' as ->. injection Hp' as ->.
  exists (next_time ev). split; [reflexivity |].
  destruct ev as [n0 nx pv]. simpl in *. congruence.
Qed.

(** C4: on every tick, for every rule of the schedule, with [next_future]
    and [most_recent] the two values computed for the rule on that tick:
    when [next_future] is [None] the event has no entry at all, neither in
    [events_info] nor among the active or the upcoming events; otherwise it
    is active exactly when [most_recent] is present and
    [0 <= now - most_recent <= 120] seconds, with a remaining time of
    [120 s - (now - most_recent)] that the clamp to [>= 0] leaves as it is,
    and it is upcoming in every other case, with [until = next_future - now].
    An event is never in both groups. *)
Theorem classification_of_each_rule (now : datetime) (schedule : list (string * string))
  (clock : nat -> datetime * datetime) (events_info : list event)
  (i : nat) (nm sched : string) :
  NoDup (schedule.*1) ->
  events_loop schedule clock 0 = Ok events_info ->
  schedule !! i = Some (nm, sched) ->
  exists next_future most_recent,
    get_next_run_time sched (fst (clock i)) = Ok next_future
    /\ get_previous_run_time sched (snd (clock i)) = Ok most_recent
    /\ let active_events := fst (classify now events_info) in
       let upcoming_events := snd (classify now events_info) in
       let in_window :=
         exists prev, most_recent = Some prev /\ 0 <= now - prev <= 120 * SECOND in
       match next_future with
       | None =>
           (forall ev, In ev events_info -> name ev <> nm)
           /\ (forall a, In a active_events -> name (active_of a) <> nm)
           /\ (forall ev, In ev upcoming_events -> name ev <> nm)
       | Some next =>
           let ev := {| name := nm; next_time := next; prev_time := most_recent |} in
           (in_window ->
              exists prev,
                most_recent = Some prev
                /\ let a := {| active_of := ev;
                               time_remaining := 120 * SECOND - (now - prev) |} in
                   In a active_events
                   /\ clamped_remaining a = 120 * SECOND - (now - prev)
                   /\ 0 <= clamped_remaining a
                   /\ (forall a', In a' active_events -> name (active_of a') = nm -> a' = a)
                   /\ (forall e, In e upcoming_events -> name e <> nm))
           /\ (~ in_window ->
                 In ev upcoming_events
                 /\ time_until now ev = next - now
                 /\ (forall e, In e upcoming_events -> name e = nm -> e = ev)
                 /\ (forall a, In a active_events -> name (active_of a) <> nm))
       end.
Proof.
  intros Hnodup Hloop Hi.
  destruct (events_loop_named schedule clock events_info i nm sched Hnodup Hloop Hi)
    as (next_future & most_recent & Hn & Hp & Hin & Huniq).
  exists next_future, most_recent. split; [exact Hn |]. split; [exact Hp |].
  cbv zeta. destruct next_future as [next|].
  - set (ev := {| name := nm; next_time := next; prev_time := most_recent |}).
    specialize (Hin next eq_refl). fold ev in Hin.
    assert (forall e, In e events_info -> name e = nm -> e = ev) as Hev.
    { intros e He Hname. destruct (Huniq e He Hname) as (n & [= <-] & ->). reflexivity. }
    split.
    + intros (prev & -> & Hwin). exists prev. split; [reflexivity |].
      assert (active_window now ev = Some (120 * SECOND - (now - prev))) as Hw.
      { apply active_window_Some. exists prev. auto. }
      split; [apply classify_active; simpl; auto |].
      unfold clamped_remaining. simpl.
      split; [lia |]. split; [lia |]. split.
      * intros a' Ha' Hname. apply classify_active in Ha' as [Hin' Hw'].
        rewrite (Hev _ Hin' Hname) in Hw'. rewrite Hw in Hw'.
        destruct a' as [e r]. simpl in *.
        rewrite (Hev _ Hin' Hname). congruence.
      * intros e He Hname. apply classify_upcoming in He as [Hin' Hw'].
        rewrite (Hev _ Hin' Hname) in Hw'. congruence.
    + intros Hout.
      assert (active_window now ev = None) as Hw by (apply active_window_None; exact Hout).
      split; [apply classify_upcoming; auto |].
      split; [reflexivity |]. split.
      * intros e He Hname. apply classify_upcoming in He as [Hin' _]. auto.
      * intros a Ha Hname. apply classify_active in Ha as [Hin' Hw'].
        rewrite (Hev _ Hin' Hname) in Hw'. congruence.
  - assert (forall ev, In ev events_info -> name ev <> nm) as Hnone.
    { intros ev Hev Hname. destruct (Huniq ev Hev Hname) as (n & Habs & _). discriminate. }
    split; [exact Hnone |]. split.
    + intros a Ha. apply classify_active in Ha as [Hin' _]. auto.
    + intros ev Hev. apply classify_upcoming in Hev as [Hin' _]. auto.
Qed.

(** An input at which the hypotheses of [classification_of_each_rule] hold. *)
Lemma classification_of_each_rule_witness :
  NoDup (EVENT_SCHEDULE.*1)
  /\ events_loop EVENT_SCHEDULE tick_clock 0 = Ok tick_events
  /\ EVENT_SCHEDULE !! 0%nat = Some ("Easy Dungeon", "0 * * * *")
  /\ exists next_future most_recent,
       get_next_run_time "0 * * * *" (fst (tick_clock 0)) = Ok next_future
       /\ get_previous_run_time "0 * * * *" (snd (tick_clock 0)) = Ok most_recent.
Proof.
  assert (NoDup (EVENT_SCHEDULE.*1)) as H1
    by (apply (bool_decide_unpack _); vm_compute; exact I).
  assert (events_loop EVENT_SCHEDULE tick_clock 0 = Ok tick_events) as H2
    by (vm_compute; reflexivity).
  assert (EVENT_SCHEDULE !! 0%nat = Some ("Easy Dungeon", "0 * * * *")) as H3
    by reflexivity.
  split; [exact H1 |]. split; [exact H2 |]. split; [exact H3 |].
  destruct (classification_of_each_rule tick_now EVENT_SCHEDULE tick_clock tick_events
              0 "Easy Dungeon" "0 * * * *" H1 H2 H3)
    as (next_future & most_recent & Hn & Hp & _).
  exists next_future, most_recent. split; [exact Hn | exact Hp].
Defined.

(** ** Sorting and the order of the sections *)

Section sort_by.
Context {A : Type} (key : A -> Z).

Local Abbreviation key_le := (fun x y : A => key x <= key y).

Lemma insert_by_perm (x : A) (l : list A) : Permutation (insert_by key x l) (x :: l).
Proof.
  induction l as [| y l IH]; simpl.
  - reflexivity.
  - destruct (key x <=? key y); [reflexivity |].
    rewrite IH. apply perm_swap.
Qed.

Lemma sort_by_perm (l : list A) : Permutation (sort_by key l) l.
Proof.
  induction l as [| x l IH]; simpl; [reflexivity |].
  rewrite insert_by_perm. constructor. exact IH.
Qed.

Lemma insert_by_sorted (x : A) (l : list A) :
  StronglySorted key_le l -> StronglySorted key_le (insert_by key x l).
Proof.
  induction 1 as [| y l Hs IH Hall]; simpl.
  - repeat constructor.
  - destruct (key x <=? key y) eqn:Hc.
    + apply Z.leb_le in Hc. constructor; [constructor; assumption |].
      constructor; [exact Hc |].
      eapply Forall_impl; [exact Hall |]. intros z Hz. simpl in Hz. lia.
    + apply Z.leb_gt in Hc. constructor; [exact IH |].
      rewrite insert_by_perm.
      constructor; [lia | exact Hall].
Qed.

Lemma sort_by_sorted (l : list A) : StronglySorted key_le (sort_by key l).
Proof.
  induction l as [| x l IH]; simpl; [constructor | apply insert_by_sorted; exact IH].
Qed.

(** The sort is stable: the elements of any one key keep their order. *)
Lemma insert_by_same_key (x : A) (l : list A) :
  List.filter (fun y => key y =? key x) (insert_by key x l)
  = x :: List.filter (fun y => key y =? key x) l.
Proof.
  induction l as [| y l IH]; simpl.
  - rewrite Z.eqb_refl. reflexivity.
  - destruct (key x <=? key y) eqn:Hc; simpl.
    + rewrite Z.eqb_refl. reflexivity.
    + apply Z.leb_gt in Hc.
      destruct (key y =? key x) eqn:He; [apply Z.eqb_eq in He; lia |].
      exact IH.
Qed.

Lemma insert_by_other_key (k : Z) (x : A) (l : list A) :
  key x <> k ->
  List.filter (fun y => key y =? k) (insert_by key x l)
  = List.filter (fun y => key y =? k) l.
Proof.
  intros Hne. induction l as [| y l IH]; simpl.
  - destruct (key x =? k) eqn:He; [apply Z.eqb_eq in He; contradiction | reflexivity].
  - destruct (key x <=? key y); simpl.
    + destruct (key x =? k) eqn:He; [apply Z.eqb_eq in He; contradiction | reflexivity].
    + rewrite IH. reflexivity.
Qed.

Lemma sort_by_stable (k : Z) (l : list A) :
  List.filter (fun y => key y =? k) (sort_by key l)
  = List.filter (fun y => key y =? k) l.
Proof.
  induction l as [| x l IH]; simpl; [reflexivity |].
  destruct (key x =? k) eqn:He.
  - apply Z.eqb_eq in He. subst k. rewrite insert_by_same_key, IH. reflexivity.
  - apply Z.eqb_neq in He. rewrite insert_by_other_key by exact He. exact IH.
Qed.

End sort_by.

Lemma upcoming_fields_lookup (now : datetime) (no_active : bool) (l : list event) :
  forall (i j : nat),
    upcoming_fields now no_active i l !! j = upcoming_field now no_active (i + j) <$> l !! j.
Proof.
  induction l as [| ev l IH]; intros i j; simpl.
  - reflexivity.
  - destruct j as [| j]; simpl.
    + rewrite Nat.add_0_r. reflexivity.
    + rewrite IH. replace (S i + j)%nat with (i + S j)%nat by lia. reflexivity.
Qed.

(** C9: the fields of the rendered embed are the fields of the active
    events, in ascending order of remaining time, followed by the fields of
    the upcoming events, in ascending order of next fire time: the field at
    a position below the number of active events is the active field of that
    rank, and the field at a later position is the upcoming field of the
    rank counted from there.  The two sorted lists are the two groups of
    the classification, rearranged. *)
Theorem embed_fields_order (now : datetime) (events_info : list event) :
  exists (active : list active_event) (upcoming : list event),
    fields (build_embed now events_info)
    = map active_field active ++ upcoming_fields now (is_empty active) 0 upcoming
    /\ Permutation active (fst (classify now events_info))
    /\ Permutation upcoming (snd (classify now events_info))
    /\ StronglySorted (fun a b => time_remaining a <= time_remaining b) active
    /\ StronglySorted (fun a b => next_time a <= next_time b) upcoming
    /\ (forall i : nat, (i < length active)%nat ->
          fields (build_embed now events_info) !! i = active_field <$> active !! i)
    /\ (forall j : nat,
          fields (build_embed now events_info) !! (length active + j)%nat
          = upcoming_field now (is_empty active) j <$> upcoming !! j).
Proof.
  unfold build_embed.
  destruct (classify now events_info) as [active_events upcoming_events]. simpl.
  exists (sort_by time_remaining active_events), (sort_by next_time upcoming_events).
  split; [reflexivity |].
  split; [apply sort_by_perm |]. split; [apply sort_by_perm |].
  split; [apply (sort_by_sorted time_remaining) |].
  split; [apply (sort_by_sorted next_time) |].
  split.
  - intros i Hi. rewrite lookup_app_l by (rewrite length_map; exact Hi).
    apply list_lookup_fmap.
  - intros j. rewrite lookup_app_r by (rewrite length_map; lia).
    rewrite length_map. replace (length _ + j - length _)%nat with j by lia.
    apply upcoming_fields_lookup.
Qed.

(** ** Notification pings *)

Lemma trace_log (e : effect) (st : state) : trace (log e st) = trace st ++ [e].
Proof. reflexivity. Qed.

Lemma pings_sent_app (t1 t2 : list effect) :
  pings_sent (t1 ++ t2) = (pings_sent t1 + pings_sent t2)%nat.
Proof. unfold pings_sent. rewrite List.filter_app, length_app. reflexivity. Qed.

(** C6, as stated, fails: the entry registered for a successful send does
    not carry [fire_time + 120 s].  [send_ping] is not given the fire time;
    it reads the clock after the send has returned.  Here the job fires at
    12:00:00, the clock reads 12:00:00.25 when the entry is made, and the
    entry's [delete_time] is 12:02:00.25. *)
Lemma ping_delete_time_is_not_fire_time :
  fire_time late_run <= run_now late_run
  /\ delete_time <$> (active_ping_messages (run_job easy_job late_run initial_state)
                       !! "Easy Dungeon")
     = Some (noon + 250000 + 120 * SECOND)
  /\ noon + 250000 + 120 * SECOND <> fire_time late_run + 120 * SECOND.
Proof.
  split; [vm_compute; discriminate |].
  split; [vm_compute; reflexivity | vm_compute; discriminate].
Qed.

(** C6, amended: every call of [send_ping] makes at most one send and never
    a second one.  When the send returns a message, the table holds under
    the event's name exactly the entry of that message, with
    [delete_time = now + 120 s] where [now] is the clock's reading taken
    after the send returned, and every other name keeps what it had.  When
    the send fails, with [Forbidden] or with any other exception, or when
    there is no channel to send on, the failure is printed and the table is
    left as it was. *)
Theorem send_ping_registers_on_success (channel : option Channel) (role_id : Z)
  (event_name : string) (send_outcome : result Message) (now : datetime) (st : state) :
  let st' := send_ping channel role_id event_name send_outcome now st in
  exists new,
    trace st' = trace st ++ new
    /\ pings_sent new = match channel with Some _ => 1%nat | None => 0%nat end
    /\ match channel, send_outcome with
       | Some _, Ok sent_message =>
           active_ping_messages st' !! event_name
           = Some {| message := sent_message; delete_time := now + 120 * SECOND |}
           /\ (forall other, other <> event_name ->
                 active_ping_messages st' !! other = active_ping_messages st !! other)
       | _, _ =>
           active_ping_messages st' = active_ping_messages st
           /\ exists e, last new = Some e /\ is_log e = true
       end.
Proof.
  unfold send_ping. cbv zeta.
  destruct channel as [ch|].
  - destruct send_outcome as [sent_message | e].
    + eexists. simpl. rewrite <- app_assoc. split; [reflexivity |].
      split; [reflexivity |]. split.
      * rewrite lookup_insert_eq. reflexivity.
      * intros other Hne. rewrite lookup_insert_ne by congruence. reflexivity.
    + destruct e; eexists; simpl; rewrite <- app_assoc;
        (split; [reflexivity |]); (split; [reflexivity |]);
        (split; [reflexivity |]); eexists; (split; [reflexivity |]); reflexivity.
  - eexists. simpl. split; [reflexivity |]. split; [reflexivity |].
    split; [reflexivity |]. eexists. split; reflexivity.
Qed.

(** ** The display reconciler: one handle, one artifact *)

Lemma embeds_sent_app (t1 t2 : list effect) :
  embeds_sent (t1 ++ t2) = (embeds_sent t1 + embeds_sent t2)%nat.
Proof. unfold embeds_sent. rewrite List.filter_app, length_app. reflexivity. Qed.

Lemma embeds_created_app (t1 t2 : list effect) :
  embeds_created (t1 ++ t2) = (embeds_created t1 + embeds_created t2)%nat.
Proof. unfold embeds_created. rewrite List.filter_app, length_app. reflexivity. Qed.

Lemma embeds_created_le_sent (t : list effect) : (embeds_created t <= embeds_sent t)%nat.
Proof.
  unfold embeds_created, embeds_sent.
  induction t as [| e t IH]; simpl; [lia |].
  destruct e as [ | | | ? [?|?] | | | | | | ]; simpl; lia.
Qed.

Lemma quiet_refl (st : state) : quiet st st.
Proof. exists []. rewrite app_nil_r. auto. Qed.

Lemma quiet_trans (st1 st2 st3 : state) : quiet st1 st2 -> quiet st2 st3 -> quiet st1 st3.
Proof.
  intros (n1 & H1 & E1 & P1) (n2 & H2 & E2 & P2). exists (n1 ++ n2).
  rewrite H2, H1, <- app_assoc, embeds_sent_app. split; [reflexivity |].
  split; [lia | congruence].
Qed.

Lemma quiet_log (e : effect) (st : state) : is_embed_send e = false -> quiet st (log e st).
Proof.
  intros He. exists [e]. split; [reflexivity |]. split; [| reflexivity].
  unfold embeds_sent. simpl. rewrite He. reflexivity.
Qed.

Lemma quiet_logs (es : list effect) :
  Forall (fun e => is_embed_send e = false) es ->
  forall st, quiet st (fold_left (fun st e => log e st) es st).
Proof.
  induction 1 as [| e es He _ IH]; intros st; simpl.
  - apply quiet_refl.
  - eapply quiet_trans; [apply quiet_log; exact He | apply IH].
Qed.

Lemma quiet_set_active_ping_messages (t : gmap string ping_entry) (st : state) :
  quiet st (set_active_ping_messages t st).
Proof. exists []. simpl. rewrite app_nil_r. auto. Qed.

Lemma quiet_set_update_embed_loop (l : Loop.t) (st : state) :
  quiet st (set_update_embed_loop l st).
Proof. exists []. simpl. rewrite app_nil_r. auto. Qed.

Lemma quiet_set_scheduler (r : bool) (jobs : gmap string job) (st : state) :
  quiet st (set_scheduler r jobs st).
Proof. exists []. simpl. rewrite app_nil_r. auto. Qed.

Lemma quiet_setup_except (cfg : config) (e : exn) (st : state) :
  quiet st (setup_except cfg e st).
Proof. destruct e; apply quiet_log; reflexivity. Qed.

Lemma quiet_start_update_loop (cfg : config) (st : state) :
  quiet st (start_update_loop cfg st).
Proof.
  unfold start_update_loop.
  destruct (Loop.is_running (update_embed_loop st)); [apply quiet_refl |].
  destruct (Loop.start (update_embed_loop st)) as [l | e].
  - eapply quiet_trans; [apply quiet_set_update_embed_loop | apply quiet_log; reflexivity].
  - apply quiet_setup_except.
Qed.

Lemma cleanup_item_quiet (delete_outcome : string -> result unit) (now : datetime)
  (item : string * ping_entry) :
  Forall (fun e => is_embed_send e = false) (fst (cleanup_item delete_outcome now item)).
Proof.
  destruct item as [event_name msg_data]. unfold cleanup_item.
  destruct (delete_time msg_data <=? now); [| constructor].
  destruct (delete_outcome event_name) as [u | e]; [| destruct e]; simpl;
    repeat constructor.
Qed.

Lemma quiet_cleanup_ping_messages (delete_outcome : string -> result unit)
  (now : datetime) (st : state) :
  quiet st (cleanup_ping_messages delete_outcome now st).
Proof.
  unfold cleanup_ping_messages. cbv zeta.
  eapply quiet_trans; [| apply quiet_set_active_ping_messages].
  apply quiet_logs. apply Forall_concat. apply Forall_forall.
  intros es Hes. apply list_elem_of_In in Hes.
  rewrite List.map_map in Hes. apply in_map_iff in Hes as (item & <- & _).
  apply cleanup_item_quiet.
Qed.

Lemma quiet_send_ping (channel : option Channel) (role_id : Z) (event_name : string)
  (send_outcome : result Message) (now : datetime) (st : state) :
  quiet st (send_ping channel role_id event_name send_outcome now st).
Proof.
  unfold send_ping. cbv zeta. destruct channel as [ch|]; [| apply quiet_log; reflexivity].
  destruct send_outcome as [m | e].
  - eapply quiet_trans; [| apply quiet_set_active_ping_messages].
    eapply quiet_trans; [| apply quiet_log; reflexivity]. apply quiet_log; reflexivity.
  - destruct e; (eapply quiet_trans; [| apply quiet_log; reflexivity]);
      apply quiet_log; reflexivity.
Qed.

Lemma quiet_keeps (st st' : state) : quiet st st' -> keeps_single_artifact st st'.
Proof.
  intros (new & Ht & Es & Hp). exists new.
  pose proof (embeds_created_le_sent new).
  split; [exact Ht |]. split; [lia |]. split.
  - intros Hpm. split; [exact Es | congruence].
  - lia.
Qed.

Lemma keeps_trans (st1 st2 st3 : state) :
  keeps_single_artifact st1 st2 -> keeps_single_artifact st2 st3 ->
  keeps_single_artifact st1 st3.
Proof.
  intros (n1 & H1 & C1 & T1 & A1) (n2 & H2 & C2 & T2 & A2). exists (n1 ++ n2).
  rewrite H2, H1, <- app_assoc, embeds_created_app, embeds_sent_app.
  pose proof (embeds_created_le_sent n1). pose proof (embeds_created_le_sent n2).
  split; [reflexivity |].
  destruct (decide (persistent_message st1 = None)) as [Hnone | Hsome].
  - destruct (decide (embeds_created n1 = 1%nat)) as [Hc | Hc].
    + specialize (A1 Hc). destruct (T2 A1) as [E2 P3].
      split; [lia |]. split; [intros; contradiction | intros _; exact P3].
    + split; [lia |]. split; [intros; contradiction |].
      intros Hsum. apply A2. lia.
  - destruct (T1 Hsome) as [E1 P2]. destruct (T2 P2) as [E2 P3].
    split; [lia |]. split; [intros _; split; [lia | exact P3] | intros _; exact P3].
Qed.

(** The locate-or-create step. *)
Lemma setup_embed_message_spec (cfg : config) (env : setup_env) (st : state) :
  let st' := setup_embed_message cfg env st in
  exists new,
    trace st' = trace st ++ new
    /\ (embeds_sent new <= 1)%nat
    /\ (persistent_message st <> None ->
        embeds_sent new = 0%nat /\ persistent_message st' <> None)
    /\ (embeds_sent new = 1%nat ->
        persistent_message st = None
        /\ (forall history, history_outcome env = Ok history ->
              List.find (is_schedule_message (client_user_id env)) (firstn 50 history) = None)
        /\ match send_embed_outcome env with
           | Ok m => persistent_message st' = Some m /\ embeds_created new = 1%nat
           | Raise _ => persistent_message st' = None /\ embeds_created new = 0%nat
           end)
    /\ (embeds_sent new = 0%nat ->
        embeds_created new = 0%nat
        /\ (persistent_message st' = persistent_message st
            \/ exists history m,
                 history_outcome env = Ok history
                 /\ List.find (is_schedule_message (client_user_id env)) (firstn 50 history)
                    = Some m
                 /\ persistent_message st' = Some m)).
Proof.
  unfold setup_embed_message. cbv zeta.
  destruct (get_channel env) as [channel|].
  2:{ eexists. split; [reflexivity |].
      cbn [embeds_sent embeds_created List.filter is_embed_send is_embed_creation length
           persistent_message log].
      split; [lia |]. split; [intros H; split; [reflexivity | exact H] |].
      split; [discriminate |]. intros _. split; [reflexivity | left; reflexivity]. }
  destruct (history_outcome env) as [history | e] eqn:Hhist.
  2:{ destruct (quiet_setup_except cfg e (log (channel_history 50 (Raise e)) st))
        as (n & Hn & En & Pn).
      exists ([channel_history 50 (Raise e)] ++ n).
      rewrite Hn. simpl trace. rewrite <- app_assoc.
      pose proof (embeds_created_le_sent ([channel_history 50 (Raise e)] ++ n)) as Hle.
      rewrite embeds_sent_app in *. change (embeds_sent [channel_history 50 (Raise e)]) with 0%nat in *.
      split; [reflexivity |]. split; [lia |].
      split; [intros H; split; [lia | rewrite Pn; exact H] |].
      split; [intros; lia |].
      intros _. split; [lia | left; rewrite Pn; reflexivity]. }
  destruct (List.find (is_schedule_message (client_user_id env)) (firstn 50 history))
    as [msg|] eqn:Hfind.
  - (* a message of the history is adopted *)
    cbn [persistent_message log set_persistent_message].
    match goal with |- context [start_update_loop cfg ?s] =>
      destruct (quiet_start_update_loop cfg s) as (n & Hn & En & Pn) end.
    rewrite Hn, Pn. cbn [trace persistent_message log set_persistent_message].
    rewrite <- !app_assoc. eexists. split; [reflexivity |].
    pose proof (embeds_created_le_sent n) as Hle.
    rewrite !embeds_sent_app, !embeds_created_app.
    cbn [embeds_sent embeds_created List.filter is_embed_send is_embed_creation length].
    split; [lia |]. split; [intros _; split; [lia | discriminate] |].
    split; [intros; lia |].
    intros _. split; [lia |]. right. exists history, msg. auto.
  - destruct (persistent_message st) as [pm|] eqn:Hpm.
    + (* a handle is tracked: nothing is sent *)
      cbn [persistent_message log].
      rewrite Hpm.
      match goal with |- context [start_update_loop cfg ?s] =>
        destruct (quiet_start_update_loop cfg s) as (n & Hn & En & Pn) end.
      rewrite Hn, Pn. cbn [trace persistent_message log].
      rewrite <- !app_assoc. eexists. split; [reflexivity |].
      pose proof (embeds_created_le_sent n) as Hle.
      rewrite !embeds_sent_app, !embeds_created_app.
      cbn [embeds_sent embeds_created List.filter is_embed_send is_embed_creation length].
      rewrite Hpm.
      split; [lia |]. split; [intros _; split; [lia | discriminate] |].
      split; [intros; lia |].
      intros _. split; [lia | left; reflexivity].
    + (* no handle: an embed is sent *)
      cbn [persistent_message log]. rewrite Hpm.
      destruct (send_embed_outcome env) as [m | e] eqn:Hsend.
      * match goal with |- context [start_update_loop cfg ?s] =>
          destruct (quiet_start_update_loop cfg s) as (n & Hn & En & Pn) end.
        rewrite Hn, Pn. cbn [trace persistent_message log set_persistent_message].
        rewrite <- !app_assoc. eexists. split; [reflexivity |].
        pose proof (embeds_created_le_sent n) as Hle.
        rewrite !embeds_sent_app, !embeds_created_app.
        cbn [embeds_sent embeds_created List.filter is_embed_send is_embed_creation length].
        split; [lia |]. split; [intros H; contradiction |].
        split.
        -- intros _. split; [reflexivity |]. split; [| split; [reflexivity | lia]].
           intros h [= <-]. exact Hfind.
        -- intros; lia.
      * match goal with |- context [setup_except cfg e ?s] =>
          destruct (quiet_setup_except cfg e s) as (n & Hn & En & Pn) end.
        rewrite Hn, Pn. cbn [trace persistent_message log].
        rewrite <- !app_assoc. eexists. split; [reflexivity |].
        pose proof (embeds_created_le_sent n) as Hle.
        rewrite !embeds_sent_app, !embeds_created_app.
        cbn [embeds_sent embeds_created List.filter is_embed_send is_embed_creation length].
        rewrite Hpm.
        split; [lia |]. split; [intros H; contradiction |].
        split.
        -- intros _. split; [reflexivity |]. split; [| split; [reflexivity | lia]].
           intros h [= <-]. exact Hfind.
        -- intros; lia.
Qed.

Lemma setup_embed_message_adopts_found (cfg : config) (env : setup_env) (st : state)
  (history : list Message) (m : Message) :
  get_channel env <> None ->
  history_outcome env = Ok history ->
  List.find (is_schedule_message (client_user_id env)) (firstn 50 history) = Some m ->
  persistent_message (setup_embed_message cfg env st) = Some m.
Proof.
  intros Hch Hhist Hfind. unfold setup_embed_message. cbv zeta.
  destruct (get_channel env); [| contradiction].
  rewrite Hhist, Hfind. cbn [persistent_message log set_persistent_message].
  match goal with |- context [start_update_loop cfg ?s] =>
    destruct (quiet_start_update_loop cfg s) as (n & Hn & En & Pn) end.
  rewrite Pn. reflexivity.
Qed.

Lemma keeps_setup_embed_message (cfg : config) (env : setup_env) (st : state) :
  keeps_single_artifact st (setup_embed_message cfg env st).
Proof.
  destruct (setup_embed_message_spec cfg env st) as (new & Ht & Hle & Htr & H1 & H0).
  exists new. pose proof (embeds_created_le_sent new).
  split; [exact Ht |]. split; [lia |]. split; [exact Htr |].
  intros Hc. assert (embeds_sent new = 1%nat) as Hs by lia.
  destruct (H1 Hs) as (_ & _ & Hout).
  destruct (send_embed_outcome env); destruct Hout as [Hp Hcr]; [| lia].
  rewrite Hp. discriminate.
Qed.

Lemma keeps_update_embed (cfg : config) (env : tick_env) (st : state) :
  keeps_single_artifact st (fst (update_embed cfg env st)).
Proof.
  unfold update_embed. destruct (persistent_message st) as [pm|];
    [| apply quiet_keeps, quiet_refl].
  cbv zeta.
  pose proof (quiet_cleanup_ping_messages (delete_outcome env) (now_cleanup env) st) as Hq.
  set (st1 := cleanup_ping_messages (delete_outcome env) (now_cleanup env) st) in *.
  destruct (events_loop EVENT_SCHEDULE (clock env) 0) as [events_info | e];
    [| apply quiet_keeps; exact Hq].
  set (ed := message_edit pm (build_embed (now_tick env) events_info) (edit_outcome env)).
  assert (quiet st (log ed st1)) as Hq2
    by (eapply quiet_trans; [exact Hq | apply quiet_log; reflexivity]).
  destruct (edit_outcome env) as [u | e]; [apply quiet_keeps; exact Hq2 |].
  destruct e; simpl;
    try (apply quiet_keeps; eapply quiet_trans; [exact Hq2 | apply quiet_log; reflexivity]).
  eapply keeps_trans; [| apply keeps_setup_embed_message].
  apply quiet_keeps. eapply quiet_trans; [exact Hq2 |].
  eapply quiet_trans; [| apply quiet_set_update_embed_loop]. apply quiet_log; reflexivity.
Qed.

Lemma keeps_tick (cfg : config) (env : tick_env) (st : state) :
  keeps_single_artifact st (tick cfg env st).
Proof.
  unfold tick. pose proof (keeps_update_embed cfg env st) as H.
  destruct (update_embed cfg env st) as [st' err]. simpl in H.
  destruct err; (eapply keeps_trans; [exact H |]);
    apply quiet_keeps, quiet_set_update_embed_loop.
Qed.

Lemma keeps_on_ready (cfg : config) (env : ready_env) (st : state) :
  keeps_single_artifact st (fst (on_ready cfg env st)).
Proof.
  unfold on_ready. cbv zeta.
  match goal with |- context [log (print "------") ?s] =>
    assert (quiet st (log (print "------") s)) as Hq
      by (eapply quiet_trans; [| apply quiet_log; reflexivity]; apply quiet_log; reflexivity);
    set (st1 := log (print "------") s) in *
  end.
  destruct (guild_found env); simpl negb; cbv iota.
  - pose proof (keeps_setup_embed_message cfg (ready_setup env) st1) as Hs.
    set (st2 := setup_embed_message cfg (ready_setup env) st1) in *.
    assert (keeps_single_artifact st st2) as Hk
      by (eapply keeps_trans; [apply quiet_keeps; exact Hq | exact Hs]).
    destruct (scheduler_running st2); [exact Hk |].
    destruct (add_jobs _ _ _ _) as [jobs [e|]]; simpl.
    + eapply keeps_trans; [exact Hk | apply quiet_keeps, quiet_set_scheduler].
    + eapply keeps_trans; [exact Hk |]. apply quiet_keeps.
      eapply quiet_trans; [| apply quiet_log; reflexivity].
      eapply quiet_trans; [| apply quiet_log; reflexivity].
      eapply quiet_trans; [| apply quiet_log; reflexivity].
      apply quiet_set_scheduler.
  - simpl. apply quiet_keeps. eapply quiet_trans; [exact Hq |].
    eapply quiet_trans; [| apply quiet_log; reflexivity]. apply quiet_log; reflexivity.
Qed.

Lemma keeps_step (cfg : config) (c : handler_call) (st : state) :
  keeps_single_artifact st (step cfg c st).
Proof.
  destruct c as [env | env | job_id r]; simpl.
  - apply keeps_on_ready.
  - destruct (Loop.is_running (update_embed_loop st));
      [apply keeps_tick | apply quiet_keeps, quiet_refl].
  - destruct (scheduler_jobs st !! job_id) as [j|]; [| apply quiet_keeps, quiet_refl].
    destruct (scheduler_running st); [| apply quiet_keeps, quiet_refl].
    apply quiet_keeps, quiet_send_ping.
Qed.

Lemma keeps_run (cfg : config) (calls : list handler_call) :
  forall st, keeps_single_artifact st (run cfg calls st).
Proof.
  unfold run. induction calls as [| c calls IH]; intros st; simpl.
  - apply quiet_keeps, quiet_refl.
  - eapply keeps_trans; [apply keeps_step | apply IH].
Qed.

(** C8: the program holds its display handle in the one global
    [persistent_message].  The locate-or-create step sends no embed at all
    when a handle is tracked and at most one otherwise; the message it
    finds in the history, or else the message its send returns, takes the
    place of the handle.  Over any sequence of handler calls, from any
    state: the calls create at most one display artifact; if a handle is
    tracked at the start they send no embed at all and a handle is still
    tracked at the end. *)
Theorem one_display_handle (cfg : config) :
  (forall (env : setup_env) (st : state),
     let st' := setup_embed_message cfg env st in
     exists new,
       trace st' = trace st ++ new
       /\ (persistent_message st <> None -> embeds_sent new = 0%nat)
       /\ (embeds_sent new <= 1)%nat
       /\ (forall m, embeds_sent new = 1%nat -> send_embed_outcome env = Ok m ->
             persistent_message st' = Some m)
       /\ (forall history m,
             get_channel env <> None ->
             history_outcome env = Ok history ->
             List.find (is_schedule_message (client_user_id env)) (firstn 50 history)
             = Some m ->
             persistent_message st' = Some m /\ embeds_sent new = 0%nat))
  /\ (forall (calls : list handler_call) (st : state),
        let st' := run cfg calls st in
        exists new,
          trace st' = trace st ++ new
          /\ (embeds_created new <= 1)%nat
          /\ (persistent_message st <> None ->
              embeds_sent new = 0%nat /\ persistent_message st' <> None)).
Proof.
  split.
  - intros env st st'.
    destruct (setup_embed_message_spec cfg env st) as (new & Ht & Hle & Htr & H1 & H0).
    exists new. split; [exact Ht |]. split; [intros H; apply Htr; exact H |].
    split; [exact Hle |]. split.
    + intros m Hs Hout. destruct (H1 Hs) as (_ & _ & Hm).
      rewrite Hout in Hm. apply Hm.
    + intros history m Hch Hhist Hfind.
      split; [eapply setup_embed_message_adopts_found; eauto |].
      destruct (decide (embeds_sent new = 1%nat)) as [Hs | Hs]; [| lia].
      destruct (H1 Hs) as (_ & Hnone & _). rewrite (Hnone history Hhist) in Hfind.
      discriminate.
  - intros calls st st'.
    destruct (keeps_run cfg calls st) as (new & Ht & Hc & Htr & _).
    exists new. auto.
Qed.

(** C1, at the input where the code departs from it: a handle is tracked,
    the edit fails with [NotFound], the history holds no schedule message
    and a send would succeed.  [update_embed] never assigns [None] to
    [persistent_message], so the locate-or-create step finds the handle
    still set and sends nothing: after the tick the handle is the stale,
    deleted message, no embed has been sent, and the task loop, stopped by
    the handler, has not been started again. *)
Lemma not_found_keeps_stale_handle :
  persistent_message (tick example_config deleted_env tracking_state) = Some stale_message
  /\ embeds_sent (trace (tick example_config deleted_env tracking_state)) = 0%nat
  /\ Loop.is_running (update_embed_loop (tick example_config deleted_env tracking_state))
     = false.
Proof. repeat split; vm_compute; reflexivity. Qed.

(** ** Start-up *)

(** C5, at the input where the code departs from it: [GUILD_ID] is not
    set.  [int(os.getenv("GUILD_ID"))] raises [TypeError] on line 13, before
    the check of line 264 that prints the fatal message: the process ends
    on the uncaught exception, having printed nothing and not having
    called [client.run]. *)
Lemma missing_guild_id_raises :
  environ_without_guild !! "GUILD_ID" = None
  /\ forall run_outcome, main environ_without_guild run_outcome = ([], Some TypeError).
Proof. split; [reflexivity | intros run_outcome; reflexivity]. Qed.

(** ** More on the recurrence clock *)

Lemma Ok_inj {A} (a b : A) : Ok a = Ok b -> a = b.
Proof. intros H. injection H as H. exact H. Qed.

(** X1: [get_previous_run_time] looks back exactly 7200 seconds: an instant it
    returns is a fire time of the rule between [now - 7200 s] and [now],
    both included, and it returns [None] exactly when the rule has no fire
    time in that window.  It does not raise on a rule that parses. *)
Theorem previous_run_time_in_window (cron_str : string) (trigger : CronTrigger.t)
  (now : datetime) :
  CronTrigger.from_crontab cron_str = Ok trigger ->
  exists r,
    get_previous_run_time cron_str now = Ok r
    /\ (forall t, r = Some t ->
          CronTrigger.is_fire_time trigger t /\ now - 7200 * SECOND <= t <= now)
    /\ (r = None <->
        forall u, CronTrigger.is_fire_time trigger u ->
                  ~ (now - 7200 * SECOND <= u <= now)).
Proof.
  intros Hparse. unfold get_previous_run_time. rewrite Hparse. cbn [bind_result].
  exists (scan_back trigger now (range 1 121)). split; [reflexivity |].
  pose proof (scan_back_spec trigger now) as H.
  destruct (scan_back trigger now (range 1 121)) as [t|].
  - destruct H as (Hf & Hw & _). split.
    + intros t' [= <-]. auto.
    + split; [discriminate |]. intros Hnone. exfalso. exact (Hnone t Hf Hw).
  - split; [discriminate |]. split; [intros _; exact H | reflexivity].
Qed.

(** An input at which the hypotheses of [previous_run_time_in_window] hold. *)
Lemma previous_run_time_in_window_witness :
  CronTrigger.from_crontab "0 * * * *" = Ok every_hour
  /\ exists r, get_previous_run_time "0 * * * *" (noon + 1) = Ok r.
Proof.
  assert (CronTrigger.from_crontab "0 * * * *" = Ok every_hour) as Hparse
    by (vm_compute; reflexivity).
  split; [exact Hparse |].
  destruct (previous_run_time_in_window "0 * * * *" every_hour (noon + 1) Hparse)
    as (r & Hr & _).
  exists r. exact Hr.
Defined.

(** X2: the instant [get_previous_run_time] returns is the latest fire time
    not after [now], with one exception: when [now] is itself a fire time
    and so is the minute before it, the minute before is returned. *)
Theorem previous_run_time_latest (cron_str : string) (trigger : CronTrigger.t)
  (now t : datetime) :
  CronTrigger.from_crontab cron_str = Ok trigger ->
  get_previous_run_time cron_str now = Ok (Some t) ->
  forall u, CronTrigger.is_fire_time trigger u -> u <= now ->
            u <= t \/ (u = now /\ t = now - MINUTE).
Proof.
  intros Hparse. unfold get_previous_run_time. rewrite Hparse. cbn [bind_result].
  intros Hscan u Hu Hle. apply Ok_inj in Hscan.
  pose proof (scan_back_spec trigger now) as H. rewrite Hscan in H.
  destruct H as (_ & _ & Hmax).
  destruct (Z_le_dec u t) as [| Hgt]; [left; assumption | right].
  apply Hmax; [exact Hu | lia].
Qed.

(** An input at which the hypotheses of [previous_run_time_latest] hold. *)
Lemma previous_run_time_latest_witness :
  CronTrigger.from_crontab "0 * * * *" = Ok every_hour
  /\ get_previous_run_time "0 * * * *" (noon + 1) = Ok (Some noon)
  /\ forall u, CronTrigger.is_fire_time every_hour u -> u <= noon + 1 ->
               u <= noon \/ (u = noon + 1 /\ noon = noon + 1 - MINUTE).
Proof.
  assert (CronTrigger.from_crontab "0 * * * *" = Ok every_hour) as Hparse
    by (vm_compute; reflexivity).
  assert (get_previous_run_time "0 * * * *" (noon + 1) = Ok (Some noon)) as Hprev
    by (vm_compute; reflexivity).
  split; [exact Hparse |]. split; [exact Hprev |].
  exact (previous_run_time_latest "0 * * * *" every_hour (noon + 1) noon Hparse Hprev).
Defined.

(** X3: feeding the result back: when [get_previous_run_time] returns [t] and
    the minute before [t] is not a fire time of the rule, calling it with
    [t] as [now] returns [t] again. *)
Theorem previous_run_time_fixed_point (cron_str : string) (trigger : CronTrigger.t)
  (now t : datetime) :
  CronTrigger.from_crontab cron_str = Ok trigger ->
  get_previous_run_time cron_str now = Ok (Some t) ->
  ~ CronTrigger.is_fire_time trigger (t - MINUTE) ->
  get_previous_run_time cron_str t = Ok (Some t).
Proof.
  intros Hparse. unfold get_previous_run_time. rewrite Hparse. cbn [bind_result].
  intros Hscan Hgap. apply Ok_inj in Hscan.
  pose proof (scan_back_spec trigger now) as H. rewrite Hscan in H.
  destruct H as (Hfire & _ & _).
  pose proof (scan_back_spec trigger t) as H.
  destruct (scan_back trigger t (range 1 121)) as [r|].
  - destruct H as (Hr & Hw & Hmax).
    destruct (Z.eq_dec r t) as [-> | Hne]; [reflexivity | exfalso].
    destruct (Hmax t Hfire ltac:(lia)) as [_ Heq]. subst r. contradiction.
  - exfalso. apply (H t Hfire). unfold SECOND. lia.
Qed.

(** An input at which the hypotheses of [previous_run_time_fixed_point] hold. *)
Lemma previous_run_time_fixed_point_witness :
  CronTrigger.from_crontab "0 * * * *" = Ok every_hour
  /\ get_previous_run_time "0 * * * *" (noon + 1) = Ok (Some noon)
  /\ ~ CronTrigger.is_fire_time every_hour (noon - MINUTE)
  /\ get_previous_run_time "0 * * * *" noon = Ok (Some noon).
Proof.
  assert (CronTrigger.from_crontab "0 * * * *" = Ok every_hour) as Hparse
    by (vm_compute; reflexivity).
  assert (get_previous_run_time "0 * * * *" (noon + 1) = Ok (Some noon)) as Hprev
    by (vm_compute; reflexivity).
  assert (~ CronTrigger.is_fire_time every_hour (noon - MINUTE)) as Hgap
    by (vm_compute; intros [_ H]; discriminate).
  split; [exact Hparse |]. split; [exact Hprev |]. split; [exact Hgap |].
  exact (previous_run_time_fixed_point "0 * * * *" every_hour (noon + 1) noon
           Hparse Hprev Hgap).
Defined.

(** ** The handlers do not raise *)

Lemma get_next_run_time_parsed (cron_str : string) (trigger : CronTrigger.t)
  (now : datetime) :
  CronTrigger.from_crontab cron_str = Ok trigger ->
  get_next_run_time cron_str now = Ok (CronTrigger.get_next_fire_time trigger now).
Proof. intros H. unfold get_next_run_time. rewrite H. reflexivity. Qed.

Lemma get_previous_run_time_parsed (cron_str : string) (trigger : CronTrigger.t)
  (now : datetime) :
  CronTrigger.from_crontab cron_str = Ok trigger ->
  get_previous_run_time cron_str now = Ok (scan_back trigger now (range 1 121)).
Proof. intros H. unfold get_previous_run_time. rewrite H. reflexivity. Qed.

Lemma events_loop_ok (schedule : list (string * string))
  (clock : nat -> datetime * datetime) :
  Forall parses schedule ->
  forall k, exists events_info, events_loop schedule clock k = Ok events_info.
Proof.
  induction 1 as [| [nm sched] rest [trigger Htr] _ IH]; intros k.
  - exists []. reflexivity.
  - cbn [events_loop]. simpl in Htr.
    rewrite (get_next_run_time_parsed _ _ _ Htr), (get_previous_run_time_parsed _ _ _ Htr).
    cbn [bind_result]. destruct (IH (S k)) as [tail ->]. cbn [bind_result].
    eexists. reflexivity.
Qed.

Lemma add_jobs_ok (schedule : list (string * string)) (channel : option Channel)
  (role_id : Z) :
  Forall parses schedule ->
  forall jobs, snd (add_jobs schedule channel role_id jobs) = None.
Proof.
  induction 1 as [| [nm sched] rest [trigger Htr] _ IH]; intros jobs.
  - reflexivity.
  - cbn [add_jobs]. simpl in Htr. rewrite Htr. apply IH.
Qed.

Lemma EVENT_SCHEDULE_parses : Forall parses EVENT_SCHEDULE.
Proof. repeat constructor; eexists; vm_compute; reflexivity. Qed.


(** ** The janitor of notification pings *)

Lemma fold_delete_lookup (ks : list string) :
  forall (table : gmap string ping_entry) (i : string),
    fold_left (fun table k => delete k table) ks table !! i
    = if decide (i ∈ ks) then None else table !! i.
Proof.
  induction ks as [| k ks IH]; intros table i; cbn [fold_left].
  - destruct (decide (i ∈ [])) as [Hin | _]; [| reflexivity].
    apply elem_of_nil in Hin. destruct Hin.
  - rewrite IH. destruct (decide (i ∈ ks)) as [Hin | Hnin].
    + destruct (decide (i ∈ k :: ks)) as [_ | Hn]; [reflexivity |].
      exfalso. apply Hn. right. exact Hin.
    + destruct (decide (i = k)) as [-> | Hne].
      * destruct (decide (k ∈ k :: ks)) as [_ | Hn]; [apply lookup_delete_eq |].
        exfalso. apply Hn. left.
      * destruct (decide (i ∈ k :: ks)) as [Hc | _].
        -- apply elem_of_cons in Hc as [? | ?]; contradiction.
        -- apply lookup_delete_ne. congruence.
Qed.

Lemma cleanup_item_names (delete_outcome : string -> result unit) (now : datetime)
  (k : string) (e : ping_entry) :
  snd (cleanup_item delete_outcome now (k, e))
  = if delete_time e <=? now then [k] else [].
Proof.
  unfold cleanup_item. destruct (delete_time e <=? now); [| reflexivity].
  destruct (delete_outcome k) as [u | x]; [reflexivity | destruct x; reflexivity].
Qed.

Lemma messages_to_remove_spec (delete_outcome : string -> result unit) (now : datetime)
  (table : gmap string ping_entry) (i : string) :
  i ∈ concat (map snd (map (cleanup_item delete_outcome now) (map_to_list table)))
  <-> exists e, table !! i = Some e /\ delete_time e <= now.
Proof.
  rewrite list_elem_of_In, in_concat. split.
  - intros (l & Hl & Hi). rewrite List.map_map in Hl.
    apply in_map_iff in Hl as ([k e] & <- & Hke).
    rewrite cleanup_item_names in Hi.
    destruct (delete_time e <=? now) eqn:Hc; [| destruct Hi].
    destruct Hi as [<- | []]. exists e. split; [| apply Z.leb_le; exact Hc].
    apply elem_of_map_to_list. apply list_elem_of_In. exact Hke.
  - intros (e & He & Hc). exists [i]. split; [| left; reflexivity].
    rewrite List.map_map. apply in_map_iff. exists (i, e).
    rewrite cleanup_item_names. apply Z.leb_le in Hc. rewrite Hc.
    split; [reflexivity |]. apply list_elem_of_In. apply elem_of_map_to_list. exact He.
Qed.

Lemma fold_log_frame (es : list effect) :
  forall st,
    let st' := fold_left (fun st e => log e st) es st in
    trace st' = trace st ++ es
    /\ persistent_message st' = persistent_message st
    /\ active_ping_messages st' = active_ping_messages st
    /\ update_embed_loop st' = update_embed_loop st
    /\ scheduler_running st' = scheduler_running st
    /\ scheduler_jobs st' = scheduler_jobs st.
Proof.
  induction es as [| e es IH]; intros st; cbn [fold_left]; cbv zeta.
  - rewrite app_nil_r. repeat split; reflexivity.
  - destruct (IH (log e st)) as (H1 & H2 & H3 & H4 & H5 & H6). cbv zeta in *.
    rewrite H1, H2, H3, H4, H5, H6. cbn [log trace persistent_message active_ping_messages
      update_embed_loop scheduler_running scheduler_jobs].
    rewrite <- app_assoc. repeat split; reflexivity.
Qed.

Lemma cleanup_ping_messages_frame (delete_outcome : string -> result unit)
  (now : datetime) (st : state) :
  let st' := cleanup_ping_messages delete_outcome now st in
  (forall name,
     active_ping_messages st' !! name
     = match active_ping_messages st !! name with
       | Some e => if delete_time e <=? now then None else Some e
       | None => None
       end)
  /\ persistent_message st' = persistent_message st
  /\ update_embed_loop st' = update_embed_loop st
  /\ scheduler_running st' = scheduler_running st
  /\ scheduler_jobs st' = scheduler_jobs st.
Proof.
  unfold cleanup_ping_messages. cbv zeta.
  match goal with |- context [fold_left (fun st e => log e st) ?es st] =>
    destruct (fold_log_frame es st) as (_ & H2 & H3 & H4 & H5 & H6) end.
  cbn [active_ping_messages persistent_message update_embed_loop scheduler_running
       scheduler_jobs set_active_ping_messages].
  rewrite H2, H3, H4, H5, H6.
  split; [| auto]. intros name. rewrite fold_delete_lookup.
  pose proof (messages_to_remove_spec delete_outcome now (active_ping_messages st) name)
    as Hspec.
  destruct (decide (name ∈ _)) as [Hin | Hnin].
  - apply Hspec in Hin as (e & -> & Hc). apply Z.leb_le in Hc. rewrite Hc. reflexivity.
  - destruct (active_ping_messages st !! name) as [e|] eqn:He; [| reflexivity].
    destruct (delete_time e <=? now) eqn:Hc; [| reflexivity].
    exfalso. apply Hnin, Hspec. exists e. split; [reflexivity | apply Z.leb_le; exact Hc].
Qed.

(** X5: whatever the deletions do, [cleanup_ping_messages] drops from the
    table exactly the entries that are due ([delete_time <= now]), also
    when the deletion fails, and keeps every other entry as it is; it
    touches no other global. *)
Theorem cleanup_drops_due_entries (delete_outcome : string -> result unit)
  (now : datetime) (st : state) :
  let st' := cleanup_ping_messages delete_outcome now st in
  (forall name,
     active_ping_messages st' !! name
     = match active_ping_messages st !! name with
       | Some e => if delete_time e <=? now then None else Some e
       | None => None
       end)
  /\ persistent_message st' = persistent_message st
  /\ update_embed_loop st' = update_embed_loop st
  /\ scheduler_running st' = scheduler_running st
  /\ scheduler_jobs st' = scheduler_jobs st.
Proof. apply cleanup_ping_messages_frame. Qed.

Lemma cleanup_ping_messages_trace (delete_outcome : string -> result unit)
  (now : datetime) (st : state) :
  exists new,
    trace (cleanup_ping_messages delete_outcome now st) = trace st ++ new
    /\ forall m o,
         In (message_delete m o) new
         <-> exists name e,
               active_ping_messages st !! name = Some e
               /\ delete_time e <= now
               /\ m = message e /\ o = delete_outcome name.
Proof.
  unfold cleanup_ping_messages. cbv zeta.
  match goal with |- context [fold_left (fun st e => log e st) ?es st] =>
    destruct (fold_log_frame es st) as (H1 & _); exists es end.
  cbn [trace set_active_ping_messages]. split; [exact H1 |].
  intros m o. rewrite in_concat. split.
  - intros (l & Hl & Hi). rewrite List.map_map in Hl.
    apply in_map_iff in Hl as ([k e] & <- & Hke).
    apply list_elem_of_In, elem_of_map_to_list in Hke.
    unfold cleanup_item in Hi.
    destruct (delete_time e <=? now) eqn:Hc; [| destruct Hi].
    apply Z.leb_le in Hc. exists k, e.
    destruct (delete_outcome k) as [u | x] eqn:Hd; [| destruct x]; simpl in Hi;
      repeat (destruct Hi as [Hi | Hi]; [try discriminate; injection Hi as <- <-; auto |]);
      destruct Hi.
  - intros (k & e & He & Hc & -> & ->).
    exists (fst (cleanup_item delete_outcome now (k, e))). split.
    + rewrite List.map_map. apply in_map_iff. exists (k, e). split; [reflexivity |].
      apply list_elem_of_In, elem_of_map_to_list. exact He.
    + unfold cleanup_item. apply Z.leb_le in Hc. rewrite Hc.
      destruct (delete_outcome k) as [u | x]; [| destruct x]; left; reflexivity.
Qed.


(** X6: [cleanup_ping_messages] tries to delete exactly the messages of the
    entries that are due, and no other message. *)
Theorem cleanup_deletes_due_messages (delete_outcome : string -> result unit)
  (now : datetime) (st : state) :
  exists new,
    trace (cleanup_ping_messages delete_outcome now st) = trace st ++ new
    /\ forall m o,
         In (message_delete m o) new
         <-> exists name e,
               active_ping_messages st !! name = Some e
               /\ delete_time e <= now
               /\ m = message e /\ o = delete_outcome name.
Proof. apply cleanup_ping_messages_trace. Qed.

(** X7: a ping is tracked for 120 seconds from the moment it is registered: a
    cleanup before [now + 120 s] keeps its entry, and a cleanup at or after
    it drops the entry, whatever the deletion of the message does. *)
Theorem ping_tracked_for_two_minutes (ch : Channel) (role_id : Z) (event_name : string)
  (sent_message : Message) (now later : datetime)
  (delete_outcome : string -> result unit) (st : state) :
  let st1 := send_ping (Some ch) role_id event_name (Ok sent_message) now st in
  let st2 := cleanup_ping_messages delete_outcome later st1 in
  active_ping_messages st2 !! event_name
  = if now + 120 * SECOND <=? later then None
    else Some {| message := sent_message; delete_time := now + 120 * SECOND |}.
Proof.
  cbv zeta.
  destruct (cleanup_ping_messages_frame delete_outcome later
              (send_ping (Some ch) role_id event_name (Ok sent_message) now st))
    as [Hlookup _].
  cbv zeta in Hlookup. rewrite Hlookup.
  unfold send_ping. cbn [active_ping_messages set_active_ping_messages log].
  rewrite lookup_insert_eq. reflexivity.
Qed.

(** ** More on the rendered embed *)

Lemma classify_length (now : datetime) (l : list event) :
  (length (fst (classify now l)) + length (snd (classify now l)))%nat = length l.
Proof.
  induction l as [| ev l IH]; simpl; [reflexivity |].
  destruct (classify now l) as [active upcoming]. simpl in IH.
  destruct (active_window now ev); simpl; lia.
Qed.

Lemma sort_by_length {A} (key : A -> Z) (l : list A) : length (sort_by key l) = length l.
Proof. apply Permutation_length, sort_by_perm. Qed.

Lemma upcoming_fields_length (now : datetime) (b : bool) (l : list event) :
  forall i, length (upcoming_fields now b i l) = length l.
Proof. induction l as [| ev l IH]; intros i; simpl; [reflexivity | rewrite IH; reflexivity]. Qed.

Lemma build_embed_length (now : datetime) (events_info : list event) :
  length (fields (build_embed now events_info)) = length events_info.
Proof.
  unfold build_embed. pose proof (classify_length now events_info) as H.
  destruct (classify now events_info) as [active upcoming]. simpl in *.
  rewrite length_app, length_map, upcoming_fields_length, !sort_by_length. exact H.
Qed.

(** X9: the embed has one field for each entry of [events_info], no more and
    no fewer. *)
Theorem one_field_per_event (now : datetime) (events_info : list event) :
  length (fields (build_embed now events_info)) = length events_info.
Proof. apply build_embed_length. Qed.

Lemma upcoming_fields_scheduled (now : datetime) (b : bool) (l : list event) :
  forall i, (b = false \/ i <> 0%nat) ->
            upcoming_fields now b i l = map scheduled_field l.
Proof.
  induction l as [| ev l IH]; intros i Hi; simpl; [reflexivity |].
  rewrite IH by (right; lia). f_equal.
  unfold upcoming_field. destruct Hi as [-> | Hi].
  - rewrite andb_false_r. reflexivity.
  - destruct i; [contradiction | reflexivity].
Qed.

(** X10: only the first upcoming event, and only when no event is active, is
    shown as next up with a countdown; every other upcoming event is shown
    as scheduled, with a relative timestamp. *)
Theorem next_up_only_without_active (now : datetime) (events_info : list event) :
  let active := sort_by time_remaining (fst (classify now events_info)) in
  let upcoming := sort_by next_time (snd (classify now events_info)) in
  fields (build_embed now events_info)
  = map active_field active
    ++ match active, upcoming with
       | [], first :: rest => next_up_field now first :: map scheduled_field rest
       | _, _ => map scheduled_field upcoming
       end.
Proof.
  unfold build_embed. destruct (classify now events_info) as [active upcoming].
  cbv zeta. cbn [fst snd fields]. f_equal.
  destruct (sort_by time_remaining active) as [| a rest_active].
  - destruct (sort_by next_time upcoming) as [| ev rest]; [reflexivity |].
    cbn [upcoming_fields is_empty]. f_equal.
    apply upcoming_fields_scheduled. right. lia.
  - apply upcoming_fields_scheduled. left. reflexivity.
Qed.

(** ** More on the display reconciler *)

Lemma start_update_loop_frame (cfg : config) (st : state) :
  let st' := start_update_loop cfg st in
  Loop.is_running (update_embed_loop st') = true
  /\ (Loop.is_running (update_embed_loop st) = true ->
      update_embed_loop st' = update_embed_loop st)
  /\ persistent_message st' = persistent_message st.
Proof.
  unfold start_update_loop, Loop.is_running, Loop.start. cbv zeta.
  destruct (Loop.task_running (update_embed_loop st)) eqn:Hr.
  - rewrite Hr. auto.
  - simpl. split; [reflexivity |]. split; [discriminate | reflexivity].
Qed.

Lemma setup_except_frame (cfg : config) (e : exn) (st : state) :
  update_embed_loop (setup_except cfg e st) = update_embed_loop st
  /\ persistent_message (setup_except cfg e st) = persistent_message st.
Proof. destruct e; split; reflexivity. Qed.

(** X11: the locate-or-create step starts the task loop exactly when it ends
    with a handle: when the channel is found, the history can be read, and
    a schedule message is found there, or a handle was already tracked, or
    the send of a new embed succeeds.  Then the loop is running and a
    handle is tracked.  In every other case (no channel, the history or
    the send fails) the handle and the loop are left as they were. *)
Theorem setup_starts_loop_on_success (cfg : config) (env : setup_env) (st : state) :
  let st' := setup_embed_message cfg env st in
  let success :=
    exists channel history,
      get_channel env = Some channel
      /\ history_outcome env = Ok history
      /\ (List.find (is_schedule_message (client_user_id env)) (firstn 50 history) <> None
          \/ persistent_message st <> None
          \/ exists m, send_embed_outcome env = Ok m) in
  (success ->
   Loop.is_running (update_embed_loop st') = true /\ persistent_message st' <> None)
  /\ (~ success ->
      update_embed_loop st' = update_embed_loop st
      /\ persistent_message st' = persistent_message st).
Proof.
  unfold setup_embed_message. cbv zeta.
  destruct (get_channel env) as [channel|].
  2:{ split; [intros (c & h & Hc & _); discriminate | intros _; split; reflexivity]. }
  destruct (history_outcome env) as [history | e].
  2:{ split; [intros (c & h & _ & Hh & _); discriminate |].
      intros _.
      match goal with |- context [setup_except cfg e ?s] =>
        destruct (setup_except_frame cfg e s) as [Hl Hp] end.
      rewrite Hl, Hp. split; reflexivity. }
  destruct (List.find (is_schedule_message (client_user_id env)) (firstn 50 history))
    as [msg|] eqn:Hfind.
  - cbn [persistent_message log set_persistent_message].
    match goal with |- context [start_update_loop cfg ?s] =>
      destruct (start_update_loop_frame cfg s) as (Hrun & _ & Hpm) end.
    cbv zeta in *. split.
    + intros _. split; [exact Hrun | rewrite Hpm; discriminate].
    + intros Hn. exfalso. apply Hn. exists channel, history.
      rewrite Hfind. split; [reflexivity |]. split; [reflexivity |]. left. discriminate.
  - cbn [persistent_message log].
    destruct (persistent_message st) as [pm|] eqn:Hst.
    + match goal with |- context [start_update_loop cfg ?s] =>
        destruct (start_update_loop_frame cfg s) as (Hrun & _ & Hpm) end.
      cbv zeta in *. cbn [persistent_message log] in Hpm. split.
      * intros _. split; [exact Hrun | rewrite Hpm, Hst; discriminate].
      * intros Hn. exfalso. apply Hn. exists channel, history.
        split; [reflexivity |]. split; [reflexivity |]. right. left. discriminate.
    + destruct (send_embed_outcome env) as [m | e].
      * match goal with |- context [start_update_loop cfg ?s] =>
          destruct (start_update_loop_frame cfg s) as (Hrun & _ & Hpm) end.
        cbv zeta in *. split.
        -- intros _. split; [exact Hrun | rewrite Hpm; discriminate].
        -- intros Hn. exfalso. apply Hn. exists channel, history.
           split; [reflexivity |]. split; [reflexivity |]. right. right. eauto.
      * split.
        -- intros (c & h & _ & Hh & [Hf | [Hp | (m & Hm)]]).
           ++ apply Ok_inj in Hh. subst h. contradiction.
           ++ contradiction.
           ++ discriminate.
        -- intros _.
           match goal with |- context [setup_except cfg e ?s] =>
             destruct (setup_except_frame cfg e s) as [Hl Hp] end.
           rewrite Hl, Hp. split; [reflexivity | exact Hst].
Qed.

Lemma update_embed_tracked (cfg : config) (env : tick_env) (st : state) (pm : Message) :
  persistent_message st = Some pm ->
  exists events_info st1,
    events_loop EVENT_SCHEDULE (clock env) 0 = Ok events_info
    /\ st1 = log (message_edit pm (build_embed (now_tick env) events_info) (edit_outcome env))
               (cleanup_ping_messages (delete_outcome env) (now_cleanup env) st)
    /\ persistent_message st1 = Some pm
    /\ update_embed_loop st1 = update_embed_loop st
    /\ quiet st st1
    /\ update_embed cfg env st
       = match edit_outcome env with
         | Ok _ => (st1, None)
         | Raise NotFound =>
             (setup_embed_message cfg (recovery env)
                (set_update_embed_loop (Loop.stop (update_embed_loop st1))
                   (log (print "Embed message was deleted. Attempting to recreate it...") st1)),
              None)
         | Raise e => (log (print_exn "Failed to edit embed: " e) st1, None)
         end.
Proof.
  intros Hpm.
  destruct (events_loop_ok EVENT_SCHEDULE (clock env) EVENT_SCHEDULE_parses 0)
    as [events_info Hev].
  exists events_info. eexists. split; [exact Hev |]. split; [reflexivity |].
  destruct (cleanup_ping_messages_frame (delete_outcome env) (now_cleanup env) st)
    as (_ & Hp & Hl & _).
  cbv zeta in *. cbn [persistent_message update_embed_loop log].
  split; [rewrite Hp; exact Hpm |]. split; [exact Hl |].
  split; [eapply quiet_trans; [apply quiet_cleanup_ping_messages | apply quiet_log; reflexivity] |].
  unfold update_embed. rewrite Hpm. cbv zeta. rewrite Hev.
  destruct (edit_outcome env) as [u | e]; [reflexivity | destruct e; reflexivity].
Qed.

(** X12: a tick on which the edit fails with [NotFound], with a handle tracked
    and the loop running: no embed is sent; the handle after the tick is
    the schedule message found in the history when there is one, and the
    handle the tick started with otherwise, also when that message is the
    deleted one; and the task loop, stopped by the handler, is not running
    after the tick. *)
Theorem not_found_recovery (cfg : config) (env : tick_env) (st : state) (pm : Message) :
  persistent_message st = Some pm ->
  Loop.is_running (update_embed_loop st) = true ->
  edit_outcome env = Raise NotFound ->
  let st' := tick cfg env st in
  exists new,
    trace st' = trace st ++ new
    /\ embeds_sent new = 0%nat
    /\ persistent_message st'
       = match get_channel (recovery env), history_outcome (recovery env) with
         | Some _, Ok history =>
             match List.find (is_schedule_message (client_user_id (recovery env)))
                     (firstn 50 history) with
             | Some m => Some m
             | None => Some pm
             end
         | _, _ => Some pm
         end
    /\ Loop.is_running (update_embed_loop st') = false.
Proof.
  intros Hpm Hrun Hedit. cbv zeta. unfold tick.
  destruct (update_embed_tracked cfg env st pm Hpm)
    as (events_info & st1 & _ & _ & Hp1 & Hl1 & Hq1 & Hupd).
  rewrite Hupd, Hedit. clear Hupd.
  set (st2 := set_update_embed_loop (Loop.stop (update_embed_loop st1))
                (log (print "Embed message was deleted. Attempting to recreate it...") st1)).
  assert (quiet st st2) as Hq2.
  { eapply quiet_trans; [exact Hq1 |].
    eapply quiet_trans; [| apply quiet_set_update_embed_loop]. apply quiet_log; reflexivity. }
  assert (persistent_message st2 = Some pm) as Hp2 by exact Hp1.
  assert (update_embed_loop st2
          = {| Loop.task_running := true; Loop.stop_next_iteration := true |}) as Hl2.
  { unfold st2. cbn [update_embed_loop set_update_embed_loop]. rewrite Hl1.
    unfold Loop.stop. unfold Loop.is_running in Hrun. rewrite Hrun. reflexivity. }
  destruct (setup_embed_message_spec cfg (recovery env) st2)
    as (n & Hn & _ & Htr & _ & _).
  destruct (Htr ltac:(rewrite Hp2; discriminate)) as [Hsent _].
  destruct Hq2 as (n2 & Hn2 & Hs2 & _).
  exists (n2 ++ n). cbn [trace set_update_embed_loop].
  rewrite Hn, Hn2, <- app_assoc, embeds_sent_app.
  split; [reflexivity |]. split; [lia |].
  cbn [persistent_message update_embed_loop set_update_embed_loop].
  clear Hn Htr Hsent Hn2 Hs2.
  unfold setup_embed_message. cbv zeta.
  destruct (get_channel (recovery env)) as [channel|].
  2:{ cbn [persistent_message update_embed_loop log]. rewrite Hp2, Hl2. auto. }
  destruct (history_outcome (recovery env)) as [history | e].
  2:{ match goal with |- context [setup_except cfg e ?s] =>
        destruct (setup_except_frame cfg e s) as [Hl Hp] end.
      rewrite Hl, Hp. cbn [persistent_message update_embed_loop log].
      rewrite Hp2, Hl2. auto. }
  destruct (List.find _ _) as [msg|].
  - cbn [persistent_message log set_persistent_message].
    match goal with |- context [start_update_loop cfg ?s] =>
      destruct (start_update_loop_frame cfg s) as (_ & Hkeep & Hpm') end.
    cbv zeta in *. cbn [update_embed_loop persistent_message log set_persistent_message] in *.
    rewrite Hpm', Hkeep by (rewrite Hl2; reflexivity). rewrite Hl2. auto.
  - cbn [persistent_message log]. rewrite Hp2.
    match goal with |- context [start_update_loop cfg ?s] =>
      destruct (start_update_loop_frame cfg s) as (_ & Hkeep & Hpm') end.
    cbv zeta in *. cbn [update_embed_loop persistent_message log] in *.
    rewrite Hpm', Hkeep by (rewrite Hl2; reflexivity). rewrite Hl2, Hp2. auto.
Qed.

(** An input at which the hypotheses of [not_found_recovery] hold. *)
Lemma not_found_recovery_witness :
  persistent_message tracking_state = Some stale_message
  /\ Loop.is_running (update_embed_loop tracking_state) = true
  /\ edit_outcome deleted_env = Raise NotFound
  /\ exists new,
       trace (tick example_config deleted_env tracking_state)
       = trace tracking_state ++ new
       /\ embeds_sent new = 0%nat.
Proof.
  assert (persistent_message tracking_state = Some stale_message) as H1 by reflexivity.
  assert (Loop.is_running (update_embed_loop tracking_state) = true) as H2 by reflexivity.
  assert (edit_outcome deleted_env = Raise NotFound) as H3 by reflexivity.
  split; [exact H1 |]. split; [exact H2 |]. split; [exact H3 |].
  destruct (not_found_recovery example_config deleted_env tracking_state stale_message
              H1 H2 H3) as (new & Ht & Hs & _).
  exists new. split; [exact Ht | exact Hs].
Defined.

(** X13: a tick on which the edit succeeds, or fails with anything but
    [NotFound]: the handle is kept, no embed is sent, the loop goes on as
    it was, and a failure is printed with its exception. *)
Theorem edit_failure_keeps_handle (cfg : config) (env : tick_env) (st : state)
  (pm : Message) :
  persistent_message st = Some pm ->
  edit_outcome env <> Raise NotFound ->
  let st' := tick cfg env st in
  exists new,
    trace st' = trace st ++ new
    /\ embeds_sent new = 0%nat
    /\ persistent_message st' = Some pm
    /\ update_embed_loop st' = Loop.after_iteration (update_embed_loop st)
    /\ match edit_outcome env with
       | Ok _ => True
       | Raise e => last new = Some (print_exn "Failed to edit embed: " e)
       end.
Proof.
  intros Hpm Hedit. cbv zeta. unfold tick.
  destruct (update_embed_tracked cfg env st pm Hpm)
    as (events_info & st1 & _ & _ & Hp1 & Hl1 & (n1 & Hn1 & Hs1 & _) & Hupd).
  rewrite Hupd. clear Hupd.
  destruct (edit_outcome env) as [u | e].
  - exists n1. cbn [trace persistent_message update_embed_loop set_update_embed_loop].
    rewrite Hl1. auto.
  - assert (update_embed cfg env st = update_embed cfg env st) as _ by reflexivity.
    exists (n1 ++ [print_exn "Failed to edit embed: " e]).
    destruct e; try (exfalso; apply Hedit; reflexivity);
      cbn [trace persistent_message update_embed_loop set_update_embed_loop log];
      rewrite Hn1, Hl1, embeds_sent_app, Hs1, <- app_assoc, last_snoc; auto.
Qed.

(** An input at which the hypotheses of [edit_failure_keeps_handle] hold. *)
Lemma edit_failure_keeps_handle_witness :
  persistent_message tracking_state = Some stale_message
  /\ edit_outcome forbidden_env <> Raise NotFound
  /\ exists new,
       trace (tick example_config forbidden_env tracking_state)
       = trace tracking_state ++ new
       /\ embeds_sent new = 0%nat.
Proof.
  assert (persistent_message tracking_state = Some stale_message) as H1 by reflexivity.
  assert (edit_outcome forbidden_env <> Raise NotFound) as H2 by discriminate.
  split; [exact H1 |]. split; [exact H2 |].
  destruct (edit_failure_keeps_handle example_config forbidden_env tracking_state
              stale_message H1 H2) as (new & Ht & Hs & _).
  exists new. split; [exact Ht | exact Hs].
Defined.

(** ** More on start-up *)


(** X15: with any of the four required values not set, the process never calls
    [client.run]: it ends either on the fatal message of line 265 or on the
    exception that [int] raised on lines 13-15, having done nothing else. *)
Theorem missing_value_never_connects (environ : gmap string string)
  (run_outcome : result unit) (key : string) :
  In key required_keys ->
  environ !! key = None ->
  main environ run_outcome
  = ([print "FATAL: Please fill in all the configuration values in the .env file."], None)
  \/ exists e, main environ run_outcome = ([], Some e).
Proof.
  intros Hkey Hmiss. unfold main, load_config. cbv zeta.
  destruct (int_of_env (environ !! "GUILD_ID")) as [guild | e1] eqn:H1; cbn [bind_result];
    [| right; eauto].
  destruct (int_of_env (environ !! "CHANNEL_ID")) as [channel | e2] eqn:H2;
    cbn [bind_result]; [| right; eauto].
  destruct (int_of_env (environ !! "NOTIFIER_ROLE_ID")) as [role | e3] eqn:H3;
    cbn [bind_result]; [| right; eauto].
  left. cbn [BOT_TOKEN GUILD_ID CHANNEL_ID NOTIFIER_ROLE_ID].
  destruct Hkey as [<- | [<- | [<- | [<- | []]]]].
  - rewrite Hmiss. reflexivity.
  - rewrite Hmiss in H1. discriminate.
  - rewrite Hmiss in H2. discriminate.
  - rewrite Hmiss in H3. discriminate.
Qed.

(** An input at which the hypotheses of [missing_value_never_connects] hold. *)
Lemma missing_value_never_connects_witness :
  In "GUILD_ID" required_keys
  /\ environ_without_guild !! "GUILD_ID" = None
  /\ (main environ_without_guild (Ok tt)
      = ([print "FATAL: Please fill in all the configuration values in the .env file."],
         None)
      \/ exists e, main environ_without_guild (Ok tt) = ([], Some e)).
Proof.
  assert (In "GUILD_ID" required_keys) as H1 by (vm_compute; auto).
  assert (environ_without_guild !! "GUILD_ID" = None) as H2 by reflexivity.
  split; [exact H1 |]. split; [exact H2 |].
  exact (missing_value_never_connects environ_without_guild (Ok tt) "GUILD_ID" H1 H2).
Defined.

(** ** [on_ready] and the notification jobs *)

Lemma job_id_inj (a b : string) : "ping_for_" +:+ a = "ping_for_" +:+ b -> a = b.
Proof. intros H. cbv [String.app String.append] in H. congruence. Qed.

Lemma add_jobs_spec (channel : option Channel) (role_id : Z)
  (schedule : list (string * string)) :
  Forall parses schedule ->
  NoDup (schedule.*1) ->
  forall jobs,
    let jobs' := fst (add_jobs schedule channel role_id jobs) in
    (forall nm sched, In (nm, sched) schedule ->
       exists trigger,
         CronTrigger.from_crontab sched = Ok trigger
         /\ jobs' !! ("ping_for_" +:+ nm)
            = Some {| job_trigger := trigger; job_channel := channel;
                      job_role_id := role_id; job_event_name := nm |})
    /\ (forall id, (forall nm, In nm (schedule.*1) -> id <> "ping_for_" +:+ nm) ->
          jobs' !! id = jobs !! id).
Proof.
  induction 1 as [| [nm0 sched0] rest [trigger Htr] _ IH]; intros Hnd jobs.
  - cbv zeta. split; [intros nm sched [] | reflexivity].
  - simpl in Htr. cbn [add_jobs]. rewrite Htr.
    rewrite fmap_cons in Hnd. apply NoDup_cons in Hnd as [Hnotin Hnd].
    specialize (IH Hnd
      (<["ping_for_" +:+ nm0 := {| job_trigger := trigger; job_channel := channel;
                                   job_role_id := role_id; job_event_name := nm0 |}]> jobs)).
    cbv zeta in *. destruct IH as [IH1 IH2]. split.
    + intros nm sched [[= <- <-] | Hin].
      * exists trigger. split; [exact Htr |]. rewrite IH2.
        -- apply lookup_insert_eq.
        -- intros nm Hnm Heq. apply job_id_inj in Heq. subst nm.
           apply Hnotin. apply list_elem_of_In. exact Hnm.
      * apply IH1. exact Hin.
    + intros id Hid. rewrite IH2.
      * apply lookup_insert_ne. intros Heq. apply (Hid nm0); [left; reflexivity | auto].
      * intros nm Hnm. apply Hid. right. exact Hnm.
Qed.

(** X16: when the bot is in its server, [on_ready] registers the notification
    jobs once: if the scheduler is not running, it is started and holds,
    for every entry of [EVENT_SCHEDULE], a job under [ping_for_<name>]
    with the rule's trigger, the channel, the notification role and the
    event's name; jobs under other ids are left alone.  If the scheduler is
    already running (a later [on_ready]), jobs and scheduler are left as
    they are. *)
Theorem on_ready_registers_jobs_once (cfg : config) (env : ready_env) (st : state) :
  guild_found env = true ->
  let st' := fst (on_ready cfg env st) in
  if scheduler_running st
  then scheduler_running st' = true /\ scheduler_jobs st' = scheduler_jobs st
  else
    scheduler_running st' = true
    /\ (forall nm sched, In (nm, sched) EVENT_SCHEDULE ->
          exists trigger,
            CronTrigger.from_crontab sched = Ok trigger
            /\ scheduler_jobs st' !! ("ping_for_" +:+ nm)
               = Some {| job_trigger := trigger;
                         job_channel := get_channel (ready_setup env);
                         job_role_id := NOTIFIER_ROLE_ID cfg;
                         job_event_name := nm |})
    /\ (forall id, (forall nm, In nm (EVENT_SCHEDULE.*1) -> id <> "ping_for_" +:+ nm) ->
          scheduler_jobs st' !! id = scheduler_jobs st !! id).
Proof.
  intros Hguild. cbv zeta. unfold on_ready. cbv zeta. rewrite Hguild. cbn [negb].
  match goal with |- context [setup_embed_message cfg ?e ?s] =>
    set (st2 := setup_embed_message cfg e s) end.
  assert (scheduler_running st2 = scheduler_running st
          /\ scheduler_jobs st2 = scheduler_jobs st) as [Hr Hj].
  { unfold st2, setup_embed_message, start_update_loop, setup_except, Loop.start.
    cbv zeta.
    repeat match goal with
           | |- context [match ?x with _ => _ end] => destruct x
           | |- context [if ?x then _ else _] => destruct x
           end; split; reflexivity. }
  rewrite Hr. destruct (scheduler_running st) eqn:Hrun.
  - cbn [fst]. rewrite Hr, Hj. auto.
  - assert (NoDup (EVENT_SCHEDULE.*1)) as Hnd
      by (apply (bool_decide_unpack _); vm_compute; exact I).
    pose proof (add_jobs_spec (get_channel (ready_setup env)) (NOTIFIER_ROLE_ID cfg)
                  EVENT_SCHEDULE EVENT_SCHEDULE_parses Hnd (scheduler_jobs st2)) as Hspec.
    pose proof (add_jobs_ok EVENT_SCHEDULE (get_channel (ready_setup env))
                  (NOTIFIER_ROLE_ID cfg) EVENT_SCHEDULE_parses (scheduler_jobs st2)) as Hok.
    cbv zeta in Hspec.
    destruct (add_jobs EVENT_SCHEDULE (get_channel (ready_setup env))
                (NOTIFIER_ROLE_ID cfg) (scheduler_jobs st2)) as [jobs err].
    cbn [fst snd] in *. subst err.
    cbn [fst scheduler_running scheduler_jobs log set_scheduler].
    rewrite Hj in Hspec. split; [reflexivity | exact Hspec].
Qed.

(** An input at which the hypotheses of [on_ready_registers_jobs_once] hold. *)
Lemma on_ready_registers_jobs_once_witness :
  guild_found ready_example = true
  /\ scheduler_running (fst (on_ready example_config ready_example initial_state)) = true.
Proof.
  assert (guild_found ready_example = true) as H by reflexivity.
  split; [exact H |].
  pose proof (on_ready_registers_jobs_once example_config ready_example initial_state H)
    as Hthm.
  cbv zeta in Hthm. cbn [scheduler_running initial_state] in Hthm.
  destruct Hthm as [Hrun _]. exact Hrun.
Defined.

(** X8: a second ping for an event overwrites the entry of the first: the
    table then holds the second message under the event's name, and no
    later cleanup tries to delete the first message, which stays in the
    channel. *)
Theorem overwritten_ping_is_never_deleted (ch : Channel) (role_id : Z)
  (event_name : string) (m1 m2 : Message) (now1 now2 later : datetime)
  (delete_outcome : string -> result unit) (st : state) :
  m1 <> m2 ->
  (forall k e, active_ping_messages st !! k = Some e -> message e <> m1) ->
  let st1 := send_ping (Some ch) role_id event_name (Ok m1) now1 st in
  let st2 := send_ping (Some ch) role_id event_name (Ok m2) now2 st1 in
  active_ping_messages st2 !! event_name
  = Some {| message := m2; delete_time := now2 + 120 * SECOND |}
  /\ exists new,
       trace (cleanup_ping_messages delete_outcome later st2) = trace st2 ++ new
       /\ forall o, ~ In (message_delete m1 o) new.
Proof.
  intros Hne Hold. cbv zeta.
  split.
  - unfold send_ping. cbn [active_ping_messages set_active_ping_messages log].
    apply lookup_insert_eq.
  - match goal with |- context [cleanup_ping_messages delete_outcome later ?s] =>
      destruct (cleanup_ping_messages_trace delete_outcome later s) as (new & Ht & Hdel)
    end.
    exists new. split; [exact Ht |].
    intros o Hin. apply Hdel in Hin as (k & e & Hk & _ & Hm & _).
    unfold send_ping in Hk. cbn [active_ping_messages set_active_ping_messages log] in Hk.
    destruct (decide (k = event_name)) as [-> | Hk'].
    + rewrite lookup_insert_eq in Hk. apply (inj Some) in Hk. subst e. simpl in Hm.
      congruence.
    + rewrite !lookup_insert_ne in Hk by congruence.
      apply (Hold k e Hk). congruence.
Qed.

(** An input at which the hypotheses of [overwritten_ping_is_never_deleted] hold. *)
Lemma overwritten_ping_is_never_deleted_witness :
  ping_message <> fresh_message
  /\ (forall k e, active_ping_messages initial_state !! k = Some e ->
                  message e <> ping_message)
  /\ active_ping_messages
       (send_ping (Some {| channel_id := 42 |}) 7 "Easy Dungeon" (Ok fresh_message)
          (noon + 3600 * SECOND)
          (send_ping (Some {| channel_id := 42 |}) 7 "Easy Dungeon" (Ok ping_message)
             noon initial_state))
     !! "Easy Dungeon"
     = Some {| message := fresh_message;
               delete_time := noon + 3600 * SECOND + 120 * SECOND |}.
Proof.
  assert (ping_message <> fresh_message) as H1 by discriminate.
  assert (forall k e, active_ping_messages initial_state !! k = Some e ->
                      message e <> ping_message) as H2
    by (intros k e H; cbn [active_ping_messages initial_state] in H;
        rewrite lookup_empty in H; discriminate).
  split; [exact H1 |]. split; [exact H2 |].
  exact (proj1 (overwritten_ping_is_never_deleted {| channel_id := 42 |} 7 "Easy Dungeon"
                  ping_message fresh_message noon (noon + 3600 * SECOND) noon
                  (fun _ => Ok tt) initial_state H1 H2)).
Defined.

Lemma previous_run_time_spec_aux (cron_str : string) (trigger : CronTrigger.t)
  (now t : datetime) :
  CronTrigger.from_crontab cron_str = Ok trigger ->
  get_previous_run_time cron_str now = Ok (Some t) ->
  CronTrigger.is_fire_time trigger t.
Proof.
  intros Hparse Hprev. rewrite (get_previous_run_time_parsed _ _ _ Hparse) in Hprev.
  apply Ok_inj in Hprev. pose proof (scan_back_spec trigger now) as H.
  rewrite Hprev in H. apply H.
Qed.

(** ** The schedule of the program: one event at a time *)

Lemma fires_at_minute (tr : CronTrigger.t) (m : Z) :
  CronTrigger.fires_at tr m = true ->
  CronTrigger.field_matches 0 59 (CronTrigger.minute tr) (m mod 60) = true.
Proof.
  unfold CronTrigger.fires_at.
  destruct (CronTrigger.civil_from_days (m / 1440)) as [[y mo] d].
  intros H. apply andb_prop in H as [_ H]. exact H.
Qed.

Lemma rule_minute_fire_time (sched : string) (tr : CronTrigger.t) (m : Z) (t : datetime) :
  CronTrigger.from_crontab sched = Ok tr ->
  rule_minute sched = Some m ->
  CronTrigger.is_fire_time tr t ->
  t = (t / MINUTE) * MINUTE /\ (t / MINUTE) mod 60 = m.
Proof.
  intros Hparse Hmin Hfire. unfold rule_minute in Hmin. rewrite Hparse in Hmin.
  apply is_fire_time_minute in Hfire as [Ht Hf]. split; [exact Ht |].
  apply fires_at_minute in Hf.
  destruct (CronTrigger.minute tr) as [| [st | first [last|] [st|]] [| e es]];
    try discriminate.
  destruct (first =? last) eqn:Heq; [| discriminate]. apply Z.eqb_eq in Heq. subst last.
  injection Hmin as ->. unfold CronTrigger.field_matches in Hf. cbn [existsb] in Hf.
  rewrite orb_false_r in Hf. unfold CronTrigger.expression_matches in Hf.
  apply andb_prop in Hf as [Hf _]. apply andb_prop in Hf as [H1 H2].
  apply Z.leb_le in H1. apply Z.leb_le in H2.
  pose proof (Z.mod_pos_bound (t / MINUTE) 60 ltac:(lia)). lia.
Qed.

Lemma events_loop_names (schedule : list (string * string))
  (clock : nat -> datetime * datetime) :
  forall k events_info,
    events_loop schedule clock k = Ok events_info ->
    sublist (name <$> events_info) (schedule.*1).
Proof.
  induction schedule as [| [nm sched] rest IH]; intros k events_info Hloop.
  - cbn [events_loop] in Hloop. apply Ok_inj in Hloop. subst. constructor.
  - cbn [events_loop] in Hloop.
    destruct (get_next_run_time sched (fst (clock k))) as [next_run|]; [| discriminate].
    destruct (get_previous_run_time sched (snd (clock k))) as [prev_run|]; [| discriminate].
    destruct (events_loop rest clock (S k)) as [tail|] eqn:Ht; [| discriminate].
    cbn [bind_result] in Hloop. apply Ok_inj in Hloop. subst events_info.
    specialize (IH (S k) tail Ht). rewrite fmap_cons. cbn [fst].
    destruct next_run; [apply sublist_skip | apply sublist_cons]; exact IH.
Qed.

Lemma classify_active_sublist (now : datetime) (l : list event) :
  sublist (active_of <$> (fst (classify now l))) l.
Proof.
  induction l as [| ev l IH]; simpl; [constructor |].
  destruct (classify now l) as [active upcoming]. simpl in IH.
  destruct (active_window now ev); simpl; [apply sublist_skip | apply sublist_cons];
    exact IH.
Qed.

Lemma EVENT_SCHEDULE_minutes_apart :
  forall i j e1 e2,
    EVENT_SCHEDULE !! i = Some e1 -> EVENT_SCHEDULE !! j = Some e2 -> i <> j ->
    minutes_apart (snd e1) (snd e2) = true.
Proof.
  intros i j e1 e2 H1 H2 Hne.
  pose proof (lookup_lt_Some _ _ _ H1) as Li. pose proof (lookup_lt_Some _ _ _ H2) as Lj.
  change (length EVENT_SCHEDULE) with 7%nat in *.
  destruct i as [|[|[|[|[|[|[|?]]]]]]]; try lia;
    destruct j as [|[|[|[|[|[|[|?]]]]]]]; try lia; try (exfalso; apply Hne; reflexivity);
    cbn in H1, H2; injection H1 as <-; injection H2 as <-; vm_compute; reflexivity.
Qed.

(** X17: in any embed the program builds there is at most one active event:
    the rules of [EVENT_SCHEDULE] fire at least five minutes apart, and an
    event is active for two minutes. *)
Theorem at_most_one_active_event (now : datetime) (clock : nat -> datetime * datetime)
  (events_info : list event) :
  events_loop EVENT_SCHEDULE clock 0 = Ok events_info ->
  (length (fst (classify now events_info)) <= 1)%nat.
Proof.
  intros Hloop.
  assert (NoDup (EVENT_SCHEDULE.*1)) as Hnd
    by (apply (bool_decide_unpack _); vm_compute; exact I).
  assert (NoDup (name <$> (active_of <$> fst (classify now events_info)))) as Hnames.
  { assert (sublist (name <$> (active_of <$> fst (classify now events_info)))
                     (EVENT_SCHEDULE.*1)) as Hsub.
    { transitivity (name <$> events_info);
        [apply fmap_sublist, classify_active_sublist
        | apply (events_loop_names _ _ _ _ Hloop)]. }
    exact (sublist_NoDup _ _ Hnd Hsub). }
    destruct (fst (classify now events_info)) as [| a1 [| a2 rest]] eqn:Hactive;
    [simpl; lia | simpl; lia | exfalso].
  assert (In a1 (fst (classify now events_info))) as Ha1 by (rewrite Hactive; left; auto).
  assert (In a2 (fst (classify now events_info))) as Ha2
    by (rewrite Hactive; right; left; auto).
  assert (name (active_of a1) <> name (active_of a2)) as Hdiff.
  { rewrite !fmap_cons in Hnames. apply NoDup_cons in Hnames as [Hnot _].
    intros Heq. apply Hnot. rewrite Heq. left. }
  apply classify_active in Ha1 as [Hin1 Hw1]. apply classify_active in Ha2 as [Hin2 Hw2].
  apply active_window_Some in Hw1 as (p1 & Hp1 & Hr1 & _).
  apply active_window_Some in Hw2 as (p2 & Hp2 & Hr2 & _).
  destruct (events_loop_spec EVENT_SCHEDULE clock 0 events_info Hloop) as [_ Hfrom].
  destruct (Hfrom _ Hin1) as (i & s1 & Hi & _ & Hprev1).
  destruct (Hfrom _ Hin2) as (j & s2 & Hj & _ & Hprev2).
  assert (i <> j) as Hij by (intros ->; rewrite Hi in Hj; congruence).
  pose proof (EVENT_SCHEDULE_minutes_apart i j _ _ Hi Hj Hij) as Hapart.
  cbn [snd] in Hapart. unfold minutes_apart in Hapart.
  destruct (rule_minute s1) as [m1|] eqn:Hm1; [| discriminate].
  destruct (rule_minute s2) as [m2|] eqn:Hm2; [| discriminate].
  apply andb_prop in Hapart as [Hlo Hhi]. apply Z.leb_le in Hlo. apply Z.leb_le in Hhi.
  assert (exists tr1, CronTrigger.from_crontab s1 = Ok tr1) as [tr1 Htr1].
  { unfold rule_minute in Hm1. destruct (CronTrigger.from_crontab s1); [eauto | discriminate]. }
  assert (exists tr2, CronTrigger.from_crontab s2 = Ok tr2) as [tr2 Htr2].
  { unfold rule_minute in Hm2. destruct (CronTrigger.from_crontab s2); [eauto | discriminate]. }
  rewrite Hp1 in Hprev1. rewrite Hp2 in Hprev2.
  pose proof (previous_run_time_spec_aux s1 tr1 _ p1 Htr1 Hprev1) as Hf1.
  pose proof (previous_run_time_spec_aux s2 tr2 _ p2 Htr2 Hprev2) as Hf2.
  destruct (rule_minute_fire_time s1 tr1 m1 p1 Htr1 Hm1 Hf1) as [Ha Hma].
  destruct (rule_minute_fire_time s2 tr2 m2 p2 Htr2 Hm2 Hf2) as [Hb Hmb].
  revert Ha Hb Hma Hmb Hr1 Hr2 Hlo Hhi.
  generalize (p1 / MINUTE) (p2 / MINUTE). intros a b -> -> Hma Hmb Hr1 Hr2 Hlo Hhi.
  unfold MINUTE, SECOND in *.
  pose proof (Z.div_mod a 60 ltac:(lia)). pose proof (Z.div_mod b 60 ltac:(lia)).
  pose proof (Z.div_mod (m1 - m2) 60 ltac:(lia)).
  pose proof (Z.mod_pos_bound a 60 ltac:(lia)). pose proof (Z.mod_pos_bound b 60 ltac:(lia)).
  lia.
Qed.

(** An input at which the hypotheses of [at_most_one_active_event] hold. *)
Lemma at_most_one_active_event_witness :
  events_loop EVENT_SCHEDULE tick_clock 0 = Ok tick_events
  /\ (length (fst (classify tick_now tick_events)) <= 1)%nat.
Proof.
  assert (events_loop EVENT_SCHEDULE tick_clock 0 = Ok tick_events) as H
    by (vm_compute; reflexivity).
  split; [exact H |].
  exact (at_most_one_active_event tick_now tick_clock tick_events H).
Defined.

(** ** The schedule of the program: every event is listed *)

Lemma cycle_valid :
  CronTrigger.first_in (fun z => negb (valid_day z)) 146097 (-719468) = None.
Proof. vm_compute. reflexivity. Qed.

Lemma civil_from_days_shift (z k : Z) :
  CronTrigger.civil_from_days (z + 146097 * k)
  = let '(y, m, d) := CronTrigger.civil_from_days z in (y + 400 * k, m, d).
Proof.
  unfold CronTrigger.civil_from_days. cbv zeta.
  replace (z + 146097 * k + 719468) with (z + 719468 + k * 146097) by lia.
  rewrite Z.div_add by lia.
  replace (z + 719468 + k * 146097 - ((z + 719468) / 146097 + k) * 146097)
    with (z + 719468 - (z + 719468) / 146097 * 146097) by lia.
  f_equal. f_equal. lia.
Qed.

Lemma is_leap_shift (y k : Z) : CronTrigger.is_leap (y + 400 * k) = CronTrigger.is_leap y.
Proof.
  unfold CronTrigger.is_leap.
  replace (y + 400 * k) with (y + (100 * k) * 4) at 1 by lia.
  replace (y + 400 * k) with (y + (4 * k) * 100) at 1 by lia.
  replace (y + 400 * k) with (y + k * 400) by lia.
  rewrite !Z.mod_add by lia. reflexivity.
Qed.

Lemma valid_day_all (z : Z) : valid_day z = true.
Proof.
  set (k := (z + 719468) / 146097). set (z0 := z - 146097 * k).
  pose proof (Z.div_mod (z + 719468) 146097 ltac:(lia)) as Hdm.
  pose proof (Z.mod_pos_bound (z + 719468) 146097 ltac:(lia)) as Hb.
  fold k in Hdm.
  pose proof (first_in_spec (fun z => negb (valid_day z)) 146097 (-719468)) as Hspec.
  rewrite cycle_valid in Hspec. specialize (Hspec z0 ltac:(unfold z0; lia)).
  apply negb_false_iff in Hspec.
  replace z with (z0 + 146097 * k) by (unfold z0; lia).
  unfold valid_day in *. rewrite civil_from_days_shift.
  destruct (CronTrigger.civil_from_days z0) as [[y m] d].
  unfold CronTrigger.days_in_month in *. rewrite is_leap_shift. exact Hspec.
Qed.

Lemma fires_at_hourly (m0 m : Z) :
  0 <= m0 <= 59 ->
  CronTrigger.fires_at (hourly_at m0) m
  = (0 <=? m) && (m <? CronTrigger.MAX_MINUTE) && (m mod 60 =? m0).
Proof.
  intros Hm0. unfold CronTrigger.fires_at. cbv zeta.
  pose proof (valid_day_all (m / 1440)) as Hv. unfold valid_day in Hv.
  destruct (CronTrigger.civil_from_days (m / 1440)) as [[y mo] d].
  apply andb_prop in Hv as [Hv H4]. apply andb_prop in Hv as [Hv H3].
  apply andb_prop in Hv as [H1 H2].
  pose proof (Z.mod_pos_bound (m / 1440 + 3) 7 ltac:(lia)).
  pose proof (Z.mod_pos_bound (m / 60) 24 ltac:(lia)).
  pose proof (Z.mod_pos_bound m 60 ltac:(lia)).
  unfold hourly_at, CronTrigger.field_matches, CronTrigger.expression_matches,
    CronTrigger.step_ok, CronTrigger.weekday_from_days.
  cbn [CronTrigger.minute CronTrigger.hour CronTrigger.day CronTrigger.month
       CronTrigger.day_of_week existsb].
  rewrite H1, H2, H3, H4.
  replace (0 <=? (m / 1440 + 3) mod 7) with true by (symmetry; apply Z.leb_le; lia).
  replace ((m / 1440 + 3) mod 7 <=? 6) with true by (symmetry; apply Z.leb_le; lia).
  replace (0 <=? (m / 60) mod 24) with true by (symmetry; apply Z.leb_le; lia).
  replace ((m / 60) mod 24 <=? 23) with true by (symmetry; apply Z.leb_le; lia).
  cbn [andb orb]. rewrite !andb_true_r. f_equal.
  destruct (m mod 60 =? m0) eqn:He.
  - apply Z.eqb_eq in He.
    replace (Z.max 0 m0 <=? m mod 60) with true by (symmetry; apply Z.leb_le; lia).
    replace (m mod 60 <=? Z.min 59 m0) with true by (symmetry; apply Z.leb_le; lia).
    reflexivity.
  - apply Z.eqb_neq in He.
    destruct (Z.max 0 m0 <=? m mod 60) eqn:Ha; [| reflexivity].
    destruct (m mod 60 <=? Z.min 59 m0) eqn:Hb; [| reflexivity].
    apply Z.leb_le in Ha. apply Z.leb_le in Hb. lia.
Qed.

(** An hourly rule has a next fire time from every instant up to the last
    hour of year 9999. *)
Lemma hourly_next_fire_time (m0 : Z) (start : datetime) :
  0 <= m0 <= 59 -> start <= LAST_HOUR ->
  exists t, CronTrigger.get_next_fire_time (hourly_at m0) start = Some t.
Proof.
  intros Hm0 Hstart.
  destruct (CronTrigger.get_next_fire_time (hourly_at m0) start) as [t|] eqn:Hnext;
    [eauto | exfalso].
  pose proof (first_minute_spec start) as [Hfirst Hleast]. cbv zeta in Hfirst, Hleast.
  set (m1 := - ((- CronTrigger.datetime_ceil start) / MINUTE)) in *.
  specialize (Hleast (CronTrigger.MAX_MINUTE - 60) Hstart). clearbody m1.
  set (k0 := Z.max 0 m1).
  set (k := k0 + (m0 - k0) mod 60).
  pose proof (Z.mod_pos_bound (m0 - k0) 60 ltac:(lia)) as Hb.
  assert (k mod 60 = m0) as Hk.
  { unfold k. rewrite Zplus_mod_idemp_r. replace (k0 + (m0 - k0)) with m0 by lia.
    apply Z.mod_small. lia. }
  assert (0 <= k0 <= CronTrigger.MAX_MINUTE - 60) as Hk0
    by (unfold k0, CronTrigger.MAX_MINUTE in *; lia).
  assert (CronTrigger.is_fire_time (hourly_at m0) (k * MINUTE)) as Hfire.
  { apply fire_time_of_minute. rewrite fires_at_hourly by exact Hm0. rewrite Hk.
    rewrite Z.eqb_refl.
    replace (0 <=? k) with true by (symmetry; apply Z.leb_le; unfold k; lia).
    replace (k <? CronTrigger.MAX_MINUTE) with true
      by (symmetry; apply Z.ltb_lt; unfold k; lia).
    reflexivity. }
  pose proof (get_next_fire_time_None _ _ Hnext _ Hfire) as Hlt.
  assert (m1 <= k0) by (unfold k0; lia).
  assert (m1 <= k) by (unfold k; lia).
  clearbody k. unfold MINUTE, SECOND in *. lia.
Qed.

Lemma EVENT_SCHEDULE_hourly : Forall is_hourly EVENT_SCHEDULE.
Proof.
  repeat constructor;
    match goal with
    | |- is_hourly (_, ?s) =>
        let m := eval vm_compute in (rule_minute s) in
        match m with
        | Some ?v => exists v; split; [lia | vm_compute; reflexivity]
        end
    end.
Qed.

Lemma events_loop_hourly (schedule : list (string * string))
  (clock : nat -> datetime * datetime) :
  Forall is_hourly schedule ->
  forall k events_info,
    (forall j, (k <= j < k + length schedule)%nat -> fst (clock j) <= LAST_HOUR) ->
    events_loop schedule clock k = Ok events_info ->
    name <$> events_info = schedule.*1.
Proof.
  intros Hall. induction Hall as [| [nm sched] rest (m & Hm & Hparse) _ IH];
    intros k events_info Hclock Hloop.
  - cbn [events_loop] in Hloop. apply Ok_inj in Hloop. subst. reflexivity.
  - cbn [events_loop] in Hloop. cbn [snd] in Hparse. cbn [length] in Hclock.
    rewrite (get_next_run_time_parsed _ _ _ Hparse),
      (get_previous_run_time_parsed _ _ _ Hparse) in Hloop.
    cbn [bind_result] in Hloop.
    destruct (events_loop rest clock (S k)) as [tail|] eqn:Ht; [| discriminate].
    cbn [bind_result] in Hloop.
    destruct (hourly_next_fire_time m (fst (clock k)) Hm (Hclock k ltac:(lia)))
      as [t Hnext].
    rewrite Hnext in Hloop. apply Ok_inj in Hloop. subst events_info.
    rewrite !fmap_cons. cbn [name fst]. f_equal. apply (IH (S k)); [| exact Ht].
    intros j Hj. apply Hclock. lia.
Qed.

(** X18: every tick lists every event: as long as the clock is not past
    9999-12-31T23:00Z when the next runs are computed, the loop over the
    schedule yields one entry for each of the seven rules, in the order of
    [EVENT_SCHEDULE], and the embed has seven fields. *)
Theorem every_event_is_listed (clock : nat -> datetime * datetime)
  (events_info : list event) (now : datetime) :
  (forall k, (k < 7)%nat -> fst (clock k) <= LAST_HOUR) ->
  events_loop EVENT_SCHEDULE clock 0 = Ok events_info ->
  name <$> events_info = EVENT_SCHEDULE.*1
  /\ length (fields (build_embed now events_info)) = 7%nat.
Proof.
  intros Hclock Hloop.
  assert (name <$> events_info = EVENT_SCHEDULE.*1) as Hnames.
  { apply (events_loop_hourly EVENT_SCHEDULE clock EVENT_SCHEDULE_hourly 0);
      [| exact Hloop].
    intros j Hj. apply Hclock. change (length EVENT_SCHEDULE) with 7%nat in Hj. lia. }
  split; [exact Hnames |].
  rewrite build_embed_length, <- (length_fmap name), Hnames. reflexivity.
Qed.

(** An input at which the hypotheses of [every_event_is_listed] hold. *)
Lemma every_event_is_listed_witness :
  (forall k, (k < 7)%nat -> fst (tick_clock k) <= LAST_HOUR)
  /\ events_loop EVENT_SCHEDULE tick_clock 0 = Ok tick_events
  /\ name <$> tick_events = EVENT_SCHEDULE.*1.
Proof.
  assert (forall k, (k < 7)%nat -> fst (tick_clock k) <= LAST_HOUR) as H1.
  { intros k Hk. unfold tick_clock, tick_now, noon, LAST_HOUR, CronTrigger.MAX_MINUTE,
      MINUTE, SECOND. cbn [fst]. lia. }
  assert (events_loop EVENT_SCHEDULE tick_clock 0 = Ok tick_events) as H2
    by (vm_compute; reflexivity).
  split; [exact H1 |]. split; [exact H2 |].
  exact (proj1 (every_event_is_listed tick_clock tick_events tick_now H1 H2)).
Defined.

(** ** The schedule of the program: active for two minutes *)

Lemma hourly_fire_time_iff (m : Z) (u : datetime) :
  0 <= m <= 59 ->
  CronTrigger.is_fire_time (hourly_at m) u
  <-> exists k, u = k * MINUTE /\ 0 <= k < CronTrigger.MAX_MINUTE /\ k mod 60 = m.
Proof.
  intros Hm. split.
  - intros Hu. apply is_fire_time_minute in Hu as [Hu Hf].
    rewrite fires_at_hourly in Hf by exact Hm.
    apply andb_prop in Hf as [Hf H3]. apply andb_prop in Hf as [H1 H2].
    apply Z.leb_le in H1. apply Z.ltb_lt in H2. apply Z.eqb_eq in H3.
    exists (u / MINUTE). auto.
  - intros (k & -> & Hk & Hmod). apply fire_time_of_minute.
    rewrite fires_at_hourly by exact Hm.
    destruct Hk as [H1 H2]. apply Z.leb_le in H1. apply Z.ltb_lt in H2.
    apply Z.eqb_eq in Hmod. rewrite H1, H2, Hmod. reflexivity.
Qed.

Lemma scan_back_hourly (m : Z) (now : datetime) :
  0 <= m <= 59 ->
  3600 * SECOND <= now < CronTrigger.MAX_MINUTE * MINUTE ->
  scan_back (hourly_at m) now (range 1 121) = Some (last_hourly_fire m now).
Proof.
  intros Hm Hnow. unfold last_hourly_fire.
  pose proof (Z.div_mod now MINUTE ltac:(unfold MINUTE, SECOND; lia)) as Hdm.
  pose proof (Z.mod_pos_bound now MINUTE ltac:(unfold MINUTE, SECOND; lia)) as Hb.
  set (q := now / MINUTE) in *.
  pose proof (Z.mod_pos_bound (q - m) 60 ltac:(lia)) as Hr.
  pose proof (Z.div_mod (q - m) 60 ltac:(lia)) as Hdr.
  set (r := (q - m) mod 60) in *. set (k := q - r).
  assert (60 <= q < CronTrigger.MAX_MINUTE) as Hq
    by (unfold MINUTE, SECOND, CronTrigger.MAX_MINUTE in *; lia).
  assert (k mod 60 = m) as Hk.
  { unfold k. replace (q - r) with (m + (q - m) / 60 * 60) by lia.
    rewrite Z.mod_add by lia. apply Z.mod_small. lia. }
  assert (CronTrigger.is_fire_time (hourly_at m) (k * MINUTE)) as Hfire.
  { apply hourly_fire_time_iff; [exact Hm |]. exists k. unfold k. repeat split; try lia.
    exact Hk. }
  assert (forall u, CronTrigger.is_fire_time (hourly_at m) u -> u <= now ->
                    u <= k * MINUTE) as Hmax.
  { intros u Hu Hle. apply hourly_fire_time_iff in Hu as (j & -> & _ & Hj); [| exact Hm].
    assert (j <= q) by (unfold MINUTE, SECOND in *; lia).
    pose proof (Z.div_mod j 60 ltac:(lia)) as Hdj. rewrite Hj in Hdj.
    assert (j <= k) by (unfold k; lia).
    unfold MINUTE, SECOND. lia. }
  pose proof (scan_back_spec (hourly_at m) now) as Hspec.
  destruct (scan_back (hourly_at m) now (range 1 121)) as [t|].
  - destruct Hspec as (Ht & Hw & Hlate). f_equal.
    pose proof (Hmax t Ht ltac:(lia)) as Hle.
    destruct (Z.eq_dec t (k * MINUTE)) as [| Hne]; [assumption | exfalso].
    destruct (Hlate (k * MINUTE) Hfire ltac:(unfold k, MINUTE, SECOND in *; lia))
      as [Hknow Htnow].
    apply hourly_fire_time_iff in Ht as (j & Hj & _ & Hjm); [| exact Hm].
    assert (j = k - 1) by (unfold MINUTE, SECOND in *; lia). subst j.
    pose proof (Z.div_mod k 60 ltac:(lia)) as H1.
    pose proof (Z.div_mod (k - 1) 60 ltac:(lia)) as H2.
    rewrite Hk in H1. rewrite Hjm in H2. lia.
  - exfalso. apply (Hspec (k * MINUTE) Hfire).
    unfold k, MINUTE, SECOND in *. lia.
Qed.

(** X19: with the program's schedule and a clock between 1970-01-01T01:00Z and
    the end of year 9999, [get_previous_run_time] returns minute [M] of
    the current hour, or of the hour before when the current hour has not
    reached it; so an event is active exactly when the clock is at most 120
    seconds past minute [M] of the hour. *)
Theorem active_for_two_minutes (nm sched : string) (m : Z) (now : datetime) :
  In (nm, sched) EVENT_SCHEDULE ->
  rule_minute sched = Some m ->
  3600 * SECOND <= now < CronTrigger.MAX_MINUTE * MINUTE ->
  get_previous_run_time sched now = Ok (Some (last_hourly_fire m now))
  /\ forall next,
       active_window now {| name := nm; next_time := next;
                            prev_time := Some (last_hourly_fire m now) |} <> None
       <-> ((now / MINUTE - m) mod 60) * MINUTE + now mod MINUTE <= 120 * SECOND.
Proof.
  intros Hin Hmin Hnow.
  pose proof EVENT_SCHEDULE_hourly as Hall.
  rewrite Forall_forall in Hall. apply list_elem_of_In in Hin.
  destruct (Hall _ Hin) as (m' & Hm' & Hparse). cbn [snd] in Hparse.
  assert (m' = m) as ->.
  { unfold rule_minute in Hmin. rewrite Hparse in Hmin. cbn in Hmin.
    rewrite Z.eqb_refl in Hmin. congruence. }
  split.
  - rewrite (get_previous_run_time_parsed _ _ _ Hparse).
    rewrite scan_back_hourly by assumption. reflexivity.
  - intros next. unfold active_window, last_hourly_fire. cbn [prev_time].
    pose proof (Z.div_mod now MINUTE ltac:(unfold MINUTE, SECOND; lia)) as Hdm.
    pose proof (Z.mod_pos_bound now MINUTE ltac:(unfold MINUTE, SECOND; lia)) as Hb.
    pose proof (Z.mod_pos_bound (now / MINUTE - m) 60 ltac:(lia)) as Hr.
    set (q := now / MINUTE) in *. set (r := (q - m) mod 60) in *.
    set (x := now mod MINUTE) in *.
    destruct ((0 <=? now - (q - r) * MINUTE) && (now - (q - r) * MINUTE <=? 120 * SECOND))
      eqn:Hc.
    + apply andb_prop in Hc as [H1 H2]. apply Z.leb_le in H1. apply Z.leb_le in H2.
      split; [intros _ | discriminate]. unfold MINUTE, SECOND in *. lia.
    + split; [intros H; exfalso; apply H; reflexivity |].
      intros Hle. exfalso.
      apply andb_false_iff in Hc as [H1 | H2].
      * apply Z.leb_gt in H1. unfold MINUTE, SECOND in *. lia.
      * apply Z.leb_gt in H2. unfold MINUTE, SECOND in *. lia.
Qed.

(** An input at which the hypotheses of [active_for_two_minutes] hold. *)
Lemma active_for_two_minutes_witness :
  In ("Easy Dungeon", "0 * * * *") EVENT_SCHEDULE
  /\ rule_minute "0 * * * *" = Some 0
  /\ 3600 * SECOND <= tick_now < CronTrigger.MAX_MINUTE * MINUTE
  /\ get_previous_run_time "0 * * * *" tick_now = Ok (Some (last_hourly_fire 0 tick_now)).
Proof.
  assert (In ("Easy Dungeon", "0 * * * *") EVENT_SCHEDULE) as H1 by (left; reflexivity).
  assert (rule_minute "0 * * * *" = Some 0) as H2 by (vm_compute; reflexivity).
  assert (3600 * SECOND <= tick_now < CronTrigger.MAX_MINUTE * MINUTE) as H3
    by (vm_compute; split; [discriminate | reflexivity]).
  split; [exact H1 |]. split; [exact H2 |]. split; [exact H3 |].
  exact (proj1 (active_for_two_minutes "Easy Dungeon" "0 * * * *" 0 tick_now H1 H2 H3)).
Defined.

(** ** More on start-up: how the process can end on an exception *)

Lemma int_of_str_raises (s : string) (e : exn) : int_of_str s = Raise e -> e = ValueError.
Proof.
  unfold int_of_str. cbv zeta.
  destruct (strip (list_ascii_of_string s)) as [| c r].
  - destruct (forallb _ _); [destruct (CronTrigger.parse_digits _) |]; congruence.
  - destruct (Ascii.eqb c "-"); [| destruct (Ascii.eqb c "+")];
      (destruct (forallb _ _); [destruct (CronTrigger.parse_digits _) |]); congruence.
Qed.

Lemma int_of_env_raises (v : option string) (e : exn) :
  int_of_env v = Raise e ->
  (e = TypeError /\ v = None) \/ (e = ValueError /\ exists s, v = Some s).
Proof.
  destruct v as [s|]; simpl.
  - intros H. right. split; [eapply int_of_str_raises; exact H | eauto].
  - intros [= <-]. left. auto.
Qed.

(** X20: the process ends on an uncaught exception only on lines 13-15: with
    [TypeError] when one of the three identifiers is not set, with
    [ValueError] when one is set and is not an integer.  It has then
    printed nothing and has not called [client.run].  An exception of
    [client.run] is caught and printed. *)
Theorem startup_exception (environ : gmap string string) (run_outcome : result unit)
  (e : exn) :
  snd (main environ run_outcome) = Some e ->
  fst (main environ run_outcome) = []
  /\ exists key,
       In key identifier_keys
       /\ ((e = TypeError /\ environ !! key = None)
           \/ (e = ValueError /\ exists s, environ !! key = Some s
                                           /\ int_of_str s = Raise ValueError)).
Proof.
  unfold main, load_config. cbv zeta.
  destruct (int_of_env (environ !! "GUILD_ID")) as [guild | e1] eqn:H1; cbn [bind_result].
  2:{ intros [= <-]. split; [reflexivity |]. exists "GUILD_ID".
      split; [left; reflexivity |].
      destruct (int_of_env_raises _ _ H1) as [[-> Hn] | [-> (s & Hs)]]; [left; auto |].
      right. split; [reflexivity |]. exists s. rewrite Hs in *. auto. }
  destruct (int_of_env (environ !! "CHANNEL_ID")) as [channel | e2] eqn:H2;
    cbn [bind_result].
  2:{ intros [= <-]. split; [reflexivity |]. exists "CHANNEL_ID".
      split; [right; left; reflexivity |].
      destruct (int_of_env_raises _ _ H2) as [[-> Hn] | [-> (s & Hs)]]; [left; auto |].
      right. split; [reflexivity |]. exists s. rewrite Hs in *. auto. }
  destruct (int_of_env (environ !! "NOTIFIER_ROLE_ID")) as [role | e3] eqn:H3;
    cbn [bind_result].
  2:{ intros [= <-]. split; [reflexivity |]. exists "NOTIFIER_ROLE_ID".
      split; [right; right; left; reflexivity |].
      destruct (int_of_env_raises _ _ H3) as [[-> Hn] | [-> (s & Hs)]]; [left; auto |].
      right. split; [reflexivity |]. exists s. rewrite Hs in *. auto. }
  destruct (negb _ || _ || _ || _); [discriminate |].
  destruct run_outcome as [u | x]; [discriminate | destruct x; discriminate].
Qed.

(** An input at which the hypothesis of [startup_exception] holds. *)
Lemma startup_exception_witness :
  snd (main environ_without_guild (Ok tt)) = Some TypeError
  /\ fst (main environ_without_guild (Ok tt)) = [].
Proof.
  assert (snd (main environ_without_guild (Ok tt)) = Some TypeError) as H by reflexivity.
  split; [exact H |].
  exact (proj1 (startup_exception environ_without_guild (Ok tt) TypeError H)).
Defined.
